(** * simple-folder-backup: scheduling, skip decision and retention

    A shallow embedding of the Go sources [utils.go], [backup.go],
    [deduplication.go], [status.go] and [scheduler.go], and of the
    defaults of [config.go] and the log retention of [logger.go].

    - Go strings are byte strings: [string].
    - [time.Time] is an instant counted in nanoseconds from Go's zero
      instant (1 January of year 1, 00:00:00); [time.Duration] is a signed
      64-bit count of nanoseconds, with the saturation of [Time.Sub] and the
      wrap-around of Go's integer arithmetic written out.
    - The maps of [HashManager] and [BackupStatus] are [gmap string _].
    - Everything outside the process (clock, directory listings, the
      outcome of hashing, copying, deleting and writing) is a field of the
      state that the functions thread, so each Go function is a function
      from state to an outcome and a new state. *)

From stdpp Require Import gmap strings list sorting.
From Stdlib Require Import ZArith Lia Ascii.

(** ** Go byte strings: slicing *)

(** [s[n:]] *)
Fixpoint string_drop (n : nat) (s : string) : string :=
  match n, s with
  | O, _ => s
  | S n', String _ s' => string_drop n' s'
  | S _, EmptyString => EmptyString
  end.

(** [s[:n]] *)
Fixpoint string_take (n : nat) (s : string) : string :=
  match n, s with
  | O, _ => EmptyString
  | S n', String c s' => String c (string_take n' s')
  | S _, EmptyString => EmptyString
  end.

(** ** The [time] package *)

Module GoTime.

(** Nanoseconds since the zero instant. *)
Definition Time : Type := Z.
(** Signed 64-bit nanoseconds. *)
Definition Duration : Type := Z.

Definition minDuration : Duration := (- 2 ^ 63)%Z.
Definition maxDuration : Duration := (2 ^ 63 - 1)%Z.

(** Two's-complement wrap-around of a 64-bit signed integer. *)
Definition wrap64 (z : Z) : Z := ((z + 2 ^ 63) mod 2 ^ 64 - 2 ^ 63)%Z.

Definition Nanosecond : Duration := 1%Z.
Definition Second : Duration := 1000000000%Z.
Definition Minute : Duration := (60 * Second)%Z.

(** [var t time.Time] / [time.Time{}] *)
Definition zeroTime : Time := 0%Z.

Definition IsZero (t : Time) : bool := (t =? 0)%Z.
Definition After (t u : Time) : bool := (u <? t)%Z.
Definition Before (t u : Time) : bool := (t <? u)%Z.
Definition Add (t : Time) (d : Duration) : Time := (t + d)%Z.

(** [t.Sub(u)]: the difference, saturated to the range of [Duration]. *)
Definition Sub (t u : Time) : Duration :=
  if (maxDuration <? t - u)%Z then maxDuration
  else if (t - u <? minDuration)%Z then minDuration
  else (t - u)%Z.

(** [a - b] and [a * b] on [Duration] (int64). *)
Definition dsub (a b : Duration) : Duration := wrap64 (a - b).
Definition dmul (a b : Duration) : Duration := wrap64 (a * b).

(** [time.Duration(n) * time.Minute] for a Go [int] [n]. *)
Definition minutes (n : Z) : Duration := dmul (wrap64 n) Minute.

End GoTime.
Import GoTime.

(** ** utils.go *)

(** [BackupTimestampFormat], the layout [DD-MM-YYYY_HH-MM-SS]. *)
Definition BackupTimestampFormat : string := "02-01-2006_15-04-05".
(** [LogDateFormat] *)
Definition LogDateFormat : string := "02-01-2006".

(** [isBackupDirectory(dirName, sourceFolderName)] *)
Definition isBackupDirectory (dirName sourceFolderName : string) : bool :=
  let minLength := (String.length sourceFolderName + 20)%nat in
  if (String.length dirName <? minLength)%nat then false
  else
    bool_decide
      (string_drop (String.length dirName - String.length sourceFolderName) dirName
       = sourceFolderName).

(** The slice [dirName[:len(dirName)-len(sourceFolderName)-1]] that
    [parseBackupTimestamp] hands to the parser: what is left of the name
    once the source folder name and one separator byte are stripped. *)
Definition timestampPart (dirName sourceFolderName : string) : string :=
  string_take (String.length dirName - String.length sourceFolderName - 1) dirName.

(** A single path element: a name that [filepath.Join(dir, name)] appends
    to [dir] as it is.  It holds no separator (of either kind, slash or
    backslash) and is none of the empty name, [.] and [..]. *)
Definition isPathElement (name : string) : bool :=
  negb (bool_decide (name = "")) && negb (bool_decide (name = "."))
  && negb (bool_decide (name = ".."))
  && forallb (λ c, negb (bool_decide (c = "/"%char)
                         || bool_decide (c = Ascii.ascii_of_nat 92)))
       (String.list_ascii_of_string name).

(** ** Directory entries, as [os.ReadDir] returns them *)

Definition error : Type := string.

Inductive Result (A : Type) : Type :=
| Ok (a : A)
| Err (e : error).
Arguments Ok {A} a.
Arguments Err {A} e.

Record DirEntry : Type := mkDirEntry {
  Name : string;              (* entry.Name() *)
  IsDir : bool;               (* entry.IsDir() *)
  Info : Result Time;         (* entry.Info(), of which only ModTime() is read *)
  RemoveAll : option error    (* what os.RemoveAll returns for this entry *)
}.

(** The test both directory scans ([cleanupOldBackups],
    [findLastBackupTime]) apply to an entry:
    [entry.IsDir() && isBackupDirectory(entry.Name(), sourceFolderName)]. *)
Definition qualifies (sourceFolderName : string) (entry : DirEntry) : bool :=
  IsDir entry && isBackupDirectory (Name entry) sourceFolderName.


(** ** config.go *)

Module BackupConfig.
Record t : Type := mk {
  Name : string;
  Source : string;
  Destination : string;
  ScheduleMinutes : Z;             (* int *)
  RotationCount : Z;               (* int *)
  Enabled : option bool;           (* *bool, nil = enabled *)
  HashCheck : option bool;         (* *bool, nil = enabled *)
  LogRetentionDays : option Z      (* *int, nil = 7 days *)
}.
End BackupConfig.

(** [bc.IsEnabled()] *)
Definition IsEnabled (bc : BackupConfig.t) : bool :=
  match BackupConfig.Enabled bc with None => true | Some b => b end.

(** [bc.IsHashCheckEnabled()] *)
Definition IsHashCheckEnabled (bc : BackupConfig.t) : bool :=
  match BackupConfig.HashCheck bc with None => true | Some b => b end.

(** [bc.GetLogRetentionDays()] *)
Definition GetLogRetentionDays (bc : BackupConfig.t) : Z :=
  match BackupConfig.LogRetentionDays bc with None => 7%Z | Some d => d end.

(** ** deduplication.go: data *)

Record HashStatus : Type := mkHashStatus {
  LastHash : string;
  LastActionType : string;      (* "backup" or "skipped" *)
  LastActionTime : Time
}.

(** The map [hashes] is an allocated Go map throughout: [var hashManager]
    makes it, and decoding a JSON object into it keeps it.  Only a hash file
    that holds the JSON document [null] would set it to [nil], after which
    reads find no entry and the assignment in [recordAction] panics; such a
    file is not among the cases of [FileContent] below. *)
Record HashManager : Type := mkHashManager {
  hashes : gmap string HashStatus;
  filePath : string
}.

(** ** status.go: data *)

Record BackupStatus : Type := mkBackupStatus {
  lastBackupTimes : gmap string Time;
  nextBackupTimes : gmap string Time;
  scheduleMinutes : gmap string Z;
  configNames : gmap string string
}.

(** ** What lies outside the process *)

(** A file that exists, seen through what [os.ReadFile] and
    [json.Unmarshal] into a [map[string]HashStatus] make of it. *)
Inductive FileContent : Type :=
| FileUnreadable (e : error)
    (* os.ReadFile fails with [e] *)
| FileMalformed (e : error) (decoded : gmap string HashStatus)
    (* json.Unmarshal fails with [e], having stored [decoded] (nothing on a
       syntax error) *)
| FileHolds (doc : gmap string HashStatus).
    (* a JSON object that decodes to [doc] *)

Record World : Type := mkWorld {
  clock : Time;
    (* time.Now() *)
  files : gmap string FileContent;
    (* by path; an absent key is a file that does not exist *)
  dirs : gmap string (Result (list DirEntry));
    (* os.ReadDir by path; an absent key is a directory that does not exist *)
  hashDir : string → Result string;
    (* dirhash.HashDir(path, "", dirhash.Hash1) *)
  mkdirAll : string → string → option error;
    (* the error, if any, of os.MkdirAll(filepath.Join(dir, name), 0755) *)
  copyTree : string → string → string → option error;
    (* the error, if any, of copyDir(src, filepath.Join(dir, name)) *)
  writeFile : string → option (error * option FileContent)
    (* the error, if any, of os.WriteFile(path, ...), with what it leaves
       at [path] *)
}.

(** Lines written through [logger.Printf] and [log.Printf], by call site. *)
Inductive LogEntry : Type :=
| LogHashCheckFailedProceeding (name : string) (err : error)
| LogContentsIdentical (name : string)
| LogFailedRecordSkip (name : string) (err : error)
| LogFailedRecordBackup (name : string) (err : error)
| LogBackupFailed (name : string) (err : error)
| LogBackupCompleted (name : string)
| LogSchedulerStarted (name : string) (everyMinutes : Z)
| LogHashCheckFailedFolderTime (name : string) (err : error)
| LogRunImmediately (name : string) (timeDescription : string)
| LogOverdue (name : string) (timeDescription : string) (since : Duration)
| LogNextBackupIn (name : string) (timeDescription : string)
                  (since : Duration) (delay : Duration)
| LogStoppedBeforeFirst (name : string)
| LogStopped (name : string)
| LogWarnHashFile (err : error).

(** The process: the two global singletons, the log, and the world. *)
Record State : Type := mkState {
  world : World;
  hashManager : HashManager;
  backupStatus : BackupStatus;
  logs : list LogEntry
}.

Definition set_world (f : World → World) (s : State) : State :=
  mkState (f (world s)) (hashManager s) (backupStatus s) (logs s).
Definition set_hashManager (f : HashManager → HashManager) (s : State) : State :=
  mkState (world s) (f (hashManager s)) (backupStatus s) (logs s).
Definition set_backupStatus (f : BackupStatus → BackupStatus) (s : State) : State :=
  mkState (world s) (hashManager s) (f (backupStatus s)) (logs s).
Definition set_logs (f : list LogEntry → list LogEntry) (s : State) : State :=
  mkState (world s) (hashManager s) (backupStatus s) (f (logs s)).

Definition set_clock (f : Time → Time) (w : World) : World :=
  mkWorld (f (clock w)) (files w) (dirs w) (hashDir w) (mkdirAll w) (copyTree w)
          (writeFile w).
Definition set_files (f : gmap string FileContent → gmap string FileContent)
    (w : World) : World :=
  mkWorld (clock w) (f (files w)) (dirs w) (hashDir w) (mkdirAll w) (copyTree w)
          (writeFile w).
Definition set_dirs
    (f : gmap string (Result (list DirEntry)) → gmap string (Result (list DirEntry)))
    (w : World) : World :=
  mkWorld (clock w) (files w) (f (dirs w)) (hashDir w) (mkdirAll w) (copyTree w)
          (writeFile w).

(** ** Go functions as state transformers that may panic *)

Inductive Outcome (A : Type) : Type :=
| Done (a : A) (s : State)
| Panic (msg : string) (s : State).
Arguments Done {A} a s.
Arguments Panic {A} msg s.

Definition Go (A : Type) : Type := State → Outcome A.

#[export] Instance Go_ret : MRet Go := λ A a s, Done a s.
#[export] Instance Go_bind : MBind Go := λ A B f m s,
  match m s with
  | Done a s' => f a s'
  | Panic msg s' => Panic msg s'
  end.

Definition get : Go State := λ s, Done s s.
Definition gets {A} (f : State → A) : Go A := λ s, Done (f s) s.
Definition modify (f : State → State) : Go unit := λ s, Done tt (f s).
Definition panic {A} (msg : string) : Go A := λ s, Panic msg s.

Definition finalState {A} (o : Outcome A) : State :=
  match o with Done _ s => s | Panic _ s => s end.

(** [time.Now()] *)
Definition timeNow : Go Time := gets (λ s, clock (world s)).

(** [logger.Printf(...)] / [log.Printf(...)] *)
Definition logPrintf (line : LogEntry) : Go unit :=
  modify (set_logs (λ l, l ++ [line])).

(** [os.ReadDir(path)] *)
Definition osReadDir (path : string) : Go (Result (list DirEntry)) :=
  gets (λ s, match dirs (world s) !! path with
             | Some r => r
             | None => Err "no such file or directory"
             end).

(** [os.RemoveAll(filepath.Join(dir, entry.Name()))] for an entry listed in
    [dir]: either the entry's error, or the entry leaves the listing. *)
Definition osRemoveAll (dir : string) (entry : DirEntry) : Go (option error) :=
  match RemoveAll entry with
  | Some e => mret (Some e)
  | None =>
      _ ← modify (set_world (set_dirs (λ d,
             match d !! dir with
             | Some (Ok entries) =>
                 <[dir := Ok (filter (λ e', Name e' ≠ Name entry) entries)]> d
             | _ => d
             end)));
      mret None
  end.

(** [os.MkdirAll(filepath.Join(dir, name), 0755)] for a [name] that is a
    single path element, which [filepath.Join] appends as it is: on success
    a directory [name] is listed in [dir] (which is created when it did not
    exist).  A generated snapshot name is such an element unless the source
    is a root directory, whose base name is the separator; [filepath.Join]
    then drops the separator from the end of the name. *)
Definition osMkdirAll (dir name : string) : Go (option error) :=
  s ← get;
  match mkdirAll (world s) dir name with
  | Some e => mret (Some e)
  | None =>
      let fresh := mkDirEntry name true (Ok (clock (world s))) None in
      _ ← modify (set_world (set_dirs (λ d,
             match d !! dir with
             | Some (Ok entries) =>
                 if bool_decide (name ∈ Name <$> entries) then d
                 else <[dir := Ok (entries ++ [fresh])]> d
             | Some (Err _) => d
             | None => <[dir := Ok [fresh]]> d
             end)));
      mret None
  end.

(** ** Library functions the sources call *)

(** The pure functions of Go's standard library that the engine calls.
    The engine is defined, and its properties hold, for any of them. *)
Class GoRuntime : Type := {
  (** [filepath.Base(path)] *)
  filepath_Base : string → string;
  (** [t.Format(BackupTimestampFormat)] *)
  time_Format : Time → string;
  (** [time.ParseInLocation(BackupTimestampFormat, value, time.Local)] *)
  time_ParseInLocation : string → Result Time;
  (** [sort.Slice(x, less)]: the slice afterwards *)
  sort_Slice : ∀ {A : Type}, (A → A → bool) → list A → list A;
  (** the error, if any, of [json.MarshalIndent(hashes, "", "  ")] *)
  json_MarshalIndent : gmap string HashStatus → option error
}.

(** What [sort.Slice] promises for a [less] that is a strict weak order:
    the result is a rearrangement of the input in which no element is
    [less] than one before it. *)
Definition sort_Slice_ok `{GoRuntime} {A : Type} (less : A → A → bool) : Prop :=
  ∀ l : list A,
    sort_Slice less l ≡ₚ l
    ∧ StronglySorted (λ a b, less b a = false) (sort_Slice less l).

Section Engine.
Context `{GoRuntime}.

(** *** utils.go *)

(** [getSourceFolderName(sourcePath)] *)
Definition getSourceFolderName (sourcePath : string) : string :=
  filepath_Base sourcePath.

(** [parseBackupTimestamp(dirName, sourceFolderName)] *)
Definition parseBackupTimestamp (dirName sourceFolderName : string) : Result Time :=
  if negb (isBackupDirectory dirName sourceFolderName) then Ok zeroTime
  else time_ParseInLocation (timestampPart dirName sourceFolderName).

(** [generateBackupDirName(sourcePath, timestamp)] *)
Definition generateBackupDirName (sourcePath : string) (timestamp : Time) : string :=
  let sourceFolderName := getSourceFolderName sourcePath in
  time_Format timestamp +:+ "_" +:+ sourceFolderName.

(** *** deduplication.go *)

(** [hm.loadFromFile()].  [json.Unmarshal] into the existing map keeps the
    entries whose keys the document does not mention. *)
Definition loadFromFile : Go (option error) :=
  s ← get;
  match files (world s) !! filePath (hashManager s) with
  | None => mret None
  | Some (FileUnreadable e) => mret (Some e)
  | Some (FileMalformed e decoded) =>
      _ ← modify (set_hashManager (λ hm, mkHashManager (decoded ∪ hashes hm) (filePath hm)));
      mret (Some e)
  | Some (FileHolds doc) =>
      _ ← modify (set_hashManager (λ hm, mkHashManager (doc ∪ hashes hm) (filePath hm)));
      mret None
  end.

(** [hm.saveToFile()] *)
Definition saveToFile : Go (option error) :=
  s ← get;
  let hm := hashManager s in
  match json_MarshalIndent (hashes hm) with
  | Some e => mret (Some e)
  | None =>
      match writeFile (world s) (filePath hm) with
      | Some (e, Some remains) =>
          _ ← modify (set_world (set_files (λ f, <[filePath hm := remains]> f)));
          mret (Some e)
      | Some (e, None) =>
          _ ← modify (set_world (set_files (λ f, delete (filePath hm) f)));
          mret (Some e)
      | None =>
          _ ← modify (set_world (set_files (λ f, <[filePath hm := FileHolds (hashes hm)]> f)));
          mret None
      end
  end.

(** [hm.calculateDirectoryHash(dirPath)] *)
Definition calculateDirectoryHash (dirPath : string) : Go (Result string) :=
  gets (λ s, hashDir (world s) dirPath).

(** [hm.shouldSkipBackup(configName, sourcePath)]; on [Err] Go returns
    [false] beside the error. *)
Definition shouldSkipBackup (configName sourcePath : string) : Go (Result bool) :=
  r ← calculateDirectoryHash sourcePath;
  match r with
  | Err err => mret (Err err)
  | Ok currentHash =>
      s ← get;
      match hashes (hashManager s) !! configName with
      | None => mret (Ok false)
      | Some lastStatus => mret (Ok (bool_decide (currentHash = LastHash lastStatus)))
      end
  end.

(** [hm.recordAction(configName, sourcePath, actionType)] *)
Definition recordAction (configName sourcePath actionType : string) : Go (option error) :=
  r ← calculateDirectoryHash sourcePath;
  match r with
  | Err err => mret (Some err)
  | Ok currentHash =>
      now ← timeNow;
      _ ← modify (set_hashManager (λ hm,
             mkHashManager
               (<[configName := mkHashStatus currentHash actionType now]> (hashes hm))
               (filePath hm)));
      saveToFile
  end.

(** [hm.getLastActionType(configName)] *)
Definition getLastActionType (configName : string) : Go string :=
  gets (λ s, match hashes (hashManager s) !! configName with
             | Some status => LastActionType status
             | None => ""
             end).

(** [hm.getLastActionTime(configName)] *)
Definition getLastActionTime (configName : string) : Go Time :=
  gets (λ s, match hashes (hashManager s) !! configName with
             | Some status => LastActionTime status
             | None => zeroTime
             end).

(** [initHashManager()] *)
Definition initHashManager : Go unit :=
  err ← loadFromFile;
  match err with
  | Some e => logPrintf (LogWarnHashFile e)
  | None => mret tt
  end.

(** *** status.go *)

(** [bs.updateBackupCompleted(configName, scheduleMinutes)] *)
Definition updateBackupCompleted (configName : string) (minutesArg : Z) : Go unit :=
  now ← timeNow;
  modify (set_backupStatus (λ bs,
    mkBackupStatus
      (<[configName := now]> (lastBackupTimes bs))
      (<[configName := Add now (minutes minutesArg)]> (nextBackupTimes bs))
      (<[configName := minutesArg]> (scheduleMinutes bs))
      (<[configName := configName]> (configNames bs)))).

(** The body of the loop of [findLastBackupTime]. *)
Definition findLastBackupTime_step (sourceFolderName : string)
    (mostRecentTime : Time) (entry : DirEntry) : Time :=
  if qualifies sourceFolderName entry then
    match parseBackupTimestamp (Name entry) sourceFolderName with
    | Ok backupTime =>
        if negb (IsZero backupTime) then
          if After backupTime mostRecentTime then backupTime else mostRecentTime
        else mostRecentTime
    | Err _ => mostRecentTime
    end
  else mostRecentTime.

(** [bs.findLastBackupTime(config)] *)
Definition findLastBackupTime (config : BackupConfig.t) : Go Time :=
  r ← osReadDir (BackupConfig.Destination config);
  match r with
  | Err _ => mret zeroTime
  | Ok entries =>
      let sourceFolderName := getSourceFolderName (BackupConfig.Source config) in
      mret (foldl (findLastBackupTime_step sourceFolderName) zeroTime entries)
  end.

(** [bs.initializeSchedule(config)] *)
Definition initializeSchedule (config : BackupConfig.t) : Go unit :=
  now ← timeNow;
  lastBackupTime ← findLastBackupTime config;
  effectiveLastTime ←
    (if IsHashCheckEnabled config then
       lastActionType ← getLastActionType (BackupConfig.Name config);
       lastActionTime ← getLastActionTime (BackupConfig.Name config);
       if bool_decide (lastActionType = "skipped") && negb (IsZero lastActionTime) then
         r ← shouldSkipBackup (BackupConfig.Name config) (BackupConfig.Source config);
         match r with
         | Ok true => mret lastActionTime
         | _ => mret lastBackupTime
         end
       else mret lastBackupTime
     else mret lastBackupTime);
  let name := BackupConfig.Name config in
  let interval := minutes (BackupConfig.ScheduleMinutes config) in
  modify (set_backupStatus (λ bs,
    mkBackupStatus
      (if negb (IsZero effectiveLastTime)
       then <[name := effectiveLastTime]> (lastBackupTimes bs)
       else lastBackupTimes bs)
      (if negb (IsZero effectiveLastTime)
       then <[name := Add effectiveLastTime interval]> (nextBackupTimes bs)
       else <[name := Add now interval]> (nextBackupTimes bs))
      (<[name := BackupConfig.ScheduleMinutes config]> (scheduleMinutes bs))
      (<[name := name]> (configNames bs)))).

(** *** backup.go *)

(** [copyDir(src, filepath.Join(dir, name))].  Only its error is modelled:
    the files it writes lie below the snapshot directory, which no scan of
    the destination looks into. *)
Definition copyDir (src dir name : string) : Go (option error) :=
  gets (λ s, copyTree (world s) src dir name).

(** The local [type dirInfo struct] of [cleanupOldBackups]. *)
Record dirInfo : Type := mkDirInfo {
  entry : DirEntry;
  modTime : Time
}.

(** The loop that stats the snapshots: an entry whose [Info()] fails is
    skipped ([continue]). *)
Definition statEntries (backupDirs : list DirEntry) : list dirInfo :=
  omap (λ e, match Info e with
             | Ok t => Some (mkDirInfo e t)
             | Err _ => None
             end) backupDirs.

(** [func(i, j int) bool { return dirInfos[i].modTime.Before(dirInfos[j].modTime) }] *)
Definition olderThan (a b : dirInfo) : bool := Before (modTime a) (modTime b).

(** [for i := 0; i < toDelete; i++ { ... }], entered at index [i] with
    [remaining] iterations to go; indexing past the slice panics. *)
Fixpoint deleteOldest (dest : string) (dirInfos : list dirInfo)
    (i remaining : nat) : Go (option error) :=
  match remaining with
  | O => mret None
  | S remaining' =>
      match dirInfos !! i with
      | None => panic "index out of range"
      | Some d =>
          err ← osRemoveAll dest (entry d);
          match err with
          | Some e => mret (Some e)
          | None => deleteOldest dest dirInfos (S i) remaining'
          end
      end
  end.

(** [cleanupOldBackups(config)] *)
Definition cleanupOldBackups (config : BackupConfig.t) : Go (option error) :=
  r ← osReadDir (BackupConfig.Destination config);
  match r with
  | Err err => mret (Some err)
  | Ok entries =>
      let sourceFolderName := getSourceFolderName (BackupConfig.Source config) in
      let backupDirs := filter (λ e, qualifies sourceFolderName e) entries in
      if (Z.of_nat (length backupDirs) <=? BackupConfig.RotationCount config)%Z
      then mret None
      else
        let dirInfos := sort_Slice olderThan (statEntries backupDirs) in
        let toDelete :=
          wrap64 (Z.of_nat (length dirInfos) - BackupConfig.RotationCount config) in
        deleteOldest (BackupConfig.Destination config) dirInfos 0 (Z.to_nat toDelete)
  end.

(** [performBackup(config, logger)].  The non-blocking send on
    [statusUpdateChan] touches nothing that is modelled and is left out,
    here and in the skip branch below. *)
Definition performBackup (config : BackupConfig.t) : Go (option error) :=
  timestamp ← timeNow;
  let backupDirName := generateBackupDirName (BackupConfig.Source config) timestamp in
  err ← osMkdirAll (BackupConfig.Destination config) backupDirName;
  match err with
  | Some e => mret (Some ("failed to create backup directory: " +:+ e))
  | None =>
  err ← copyDir (BackupConfig.Source config) (BackupConfig.Destination config) backupDirName;
  match err with
  | Some e => mret (Some ("failed to copy files: " +:+ e))
  | None =>
  err ← cleanupOldBackups config;
  match err with
  | Some e => mret (Some ("failed to cleanup old backups: " +:+ e))
  | None =>
  _ ← updateBackupCompleted (BackupConfig.Name config) (BackupConfig.ScheduleMinutes config);
  _ ← (if IsHashCheckEnabled config then
         err ← recordAction (BackupConfig.Name config) (BackupConfig.Source config) "backup";
         match err with
         | Some e => logPrintf (LogFailedRecordBackup (BackupConfig.Name config) e)
         | None => mret tt
         end
       else mret tt);
  mret None
  end end end.

(** The skip branch of [executeBackup]: record the skip, update the status. *)
Definition skipBackup (config : BackupConfig.t) : Go (option error) :=
  _ ← logPrintf (LogContentsIdentical (BackupConfig.Name config));
  err ← recordAction (BackupConfig.Name config) (BackupConfig.Source config) "skipped";
  _ ← match err with
      | Some e => logPrintf (LogFailedRecordSkip (BackupConfig.Name config) e)
      | None => mret tt
      end;
  _ ← updateBackupCompleted (BackupConfig.Name config) (BackupConfig.ScheduleMinutes config);
  mret None.

(** [executeBackup(config, logger)] *)
Definition executeBackup (config : BackupConfig.t) : Go (option error) :=
  if IsHashCheckEnabled config then
    r ← shouldSkipBackup (BackupConfig.Name config) (BackupConfig.Source config);
    match r with
    | Err err =>
        _ ← logPrintf (LogHashCheckFailedProceeding (BackupConfig.Name config) err);
        performBackup config
    | Ok true => skipBackup config
    | Ok false => performBackup config
    end
  else performBackup config.

(** *** scheduler.go *)

(** The closure [performBackupTask] of [startBackupScheduler]. *)
Definition performBackupTask (config : BackupConfig.t) : Go unit :=
  err ← executeBackup config;
  match err with
  | Some e => logPrintf (LogBackupFailed (BackupConfig.Name config) e)
  | None => logPrintf (LogBackupCompleted (BackupConfig.Name config))
  end.

(** [startBackupScheduler], lines 67-102: the value of [effectiveLastTime]
    and of [timeDescription], given [lastBackupTime]. *)
Definition effectiveLastTime (config : BackupConfig.t) (lastBackupTime : Time)
    : Go (Time * string) :=
  if IsHashCheckEnabled config then
    lastActionType ← getLastActionType (BackupConfig.Name config);
    lastActionTime ← getLastActionTime (BackupConfig.Name config);
    if bool_decide (lastActionType = "skipped") && negb (IsZero lastActionTime) then
      r ← shouldSkipBackup (BackupConfig.Name config) (BackupConfig.Source config);
      match r with
      | Err err =>
          _ ← logPrintf (LogHashCheckFailedFolderTime (BackupConfig.Name config) err);
          mret (lastBackupTime, "backup folder")
      | Ok true => mret (lastActionTime, "last skip")
      | Ok false => mret (zeroTime, "content changed since skip")
      end
    else mret (lastBackupTime, "backup folder")
  else mret (lastBackupTime, "backup folder").

(** [startBackupScheduler], lines 104-121: the value of [firstBackupDelay]. *)
Definition firstBackupDelay (config : BackupConfig.t) (scheduleInterval : Duration)
    (effectiveLast : Time) (timeDescription : string) : Go Duration :=
  if IsZero effectiveLast then
    _ ← logPrintf (LogRunImmediately (BackupConfig.Name config) timeDescription);
    mret 0%Z
  else
    now ← timeNow;
    let timeSinceLastAction := Sub now effectiveLast in
    if (scheduleInterval <=? timeSinceLastAction)%Z then
      _ ← logPrintf (LogOverdue (BackupConfig.Name config) timeDescription
                       timeSinceLastAction);
      mret 0%Z
    else
      let delay := dsub scheduleInterval timeSinceLastAction in
      _ ← logPrintf (LogNextBackupIn (BackupConfig.Name config) timeDescription
                       timeSinceLastAction delay);
      mret delay.

(** [startBackupScheduler] up to the creation of the first timer: the
    effective last-action time and the delay handed to [time.NewTimer]. *)
Definition startupRecovery (config : BackupConfig.t) : Go (Time * Duration) :=
  _ ← initializeSchedule config;
  _ ← logPrintf (LogSchedulerStarted (BackupConfig.Name config)
                   (BackupConfig.ScheduleMinutes config));
  lastBackupTime ← findLastBackupTime config;
  let scheduleInterval := minutes (BackupConfig.ScheduleMinutes config) in
  '(effectiveLast, timeDescription) ← effectiveLastTime config lastBackupTime;
  delay ← firstBackupDelay config scheduleInterval effectiveLast timeDescription;
  mret (effectiveLast, delay).

(** When the context of a scheduler is cancelled: before the first timer
    fires, or after a number of ticks of the ticker. *)
Record Cancellation : Type := mkCancellation {
  beforeFirstBackup : bool;
  ticksBeforeDone : nat
}.

(** Waiting on a timer or ticker: the clock moves on; a timer armed with a
    delay that is not positive fires at once. *)
Definition wait (d : Duration) : Go unit :=
  modify (set_world (set_clock (λ t, Add t (Z.max 0 d)))).

(** The [for { select { ... } }] loop of [startBackupScheduler]. *)
Fixpoint tickerLoop (config : BackupConfig.t) (scheduleInterval : Duration)
    (ticks : nat) : Go unit :=
  match ticks with
  | O => logPrintf (LogStopped (BackupConfig.Name config))
  | S ticks' =>
      _ ← wait scheduleInterval;
      _ ← performBackupTask config;
      tickerLoop config scheduleInterval ticks'
  end.

(** [startBackupScheduler(ctx, config, logger)]; [time.NewTicker] panics on
    an interval that is not positive. *)
Definition startBackupScheduler (ctx : Cancellation) (config : BackupConfig.t) : Go unit :=
  '(_, delay) ← startupRecovery config;
  if beforeFirstBackup ctx then
    logPrintf (LogStoppedBeforeFirst (BackupConfig.Name config))
  else
    _ ← wait delay;
    _ ← performBackupTask config;
    let scheduleInterval := minutes (BackupConfig.ScheduleMinutes config) in
    if (scheduleInterval <=? 0)%Z then panic "non-positive interval for NewTicker"
    else tickerLoop config scheduleInterval (ticksBeforeDone ctx).

End Engine.

(** ** An instance of the library functions

    Executable versions of the library functions, used to run the engine on
    concrete inputs: [filepath.Base] with [/] as separator, the layout
    [BackupTimestampFormat] with [time.Local] taken to be UTC, a merge
    sort for [sort.Slice], and the range check of [Time.MarshalJSON]. *)

Module Unix.

Definition slash : Ascii.ascii := "/"%char.

Fixpoint dropSlashes (l : list Ascii.ascii) : list Ascii.ascii :=
  match l with
  | c :: l' => if bool_decide (c = slash) then dropSlashes l' else l
  | [] => []
  end.

Fixpoint upToSlash (l : list Ascii.ascii) : list Ascii.ascii :=
  match l with
  | c :: l' => if bool_decide (c = slash) then [] else c :: upToSlash l'
  | [] => []
  end.

(** [filepath.Base]: the last element of the path, trailing separators
    removed; ["."] for the empty path, ["/"] for a path of separators. *)
Definition Base (path : string) : string :=
  if bool_decide (path = "") then "."
  else
    let trimmed := dropSlashes (rev (String.list_ascii_of_string path)) in
    let last := rev (upToSlash trimmed) in
    if bool_decide (last = []) then "/" else String.string_of_list_ascii last.

End Unix.

Module Civil.

Local Open Scope Z_scope.

(** Days from 1 January of year 1 to the given day of the proleptic
    Gregorian calendar. *)
Definition daysFromCivil (y m d : Z) : Z :=
  let y' := if m <=? 2 then y - 1 else y in
  let era := y' / 400 in
  let yoe := y' - era * 400 in
  let doy := (153 * (if 2 <? m then m - 3 else m + 9) + 2) / 5 + d - 1 in
  let doe := yoe * 365 + yoe / 4 - yoe / 100 + doy in
  era * 146097 + doe - 306.

(** The inverse: year, month and day of a day number. *)
Definition civilFromDays (z : Z) : Z * Z * Z :=
  let z' := z + 306 in
  let era := z' / 146097 in
  let doe := z' - era * 146097 in
  let yoe := (doe - doe / 1460 + doe / 36524 - doe / 146096) / 365 in
  let doy := doe - (365 * yoe + yoe / 4 - yoe / 100) in
  let mp := (5 * doy + 2) / 153 in
  let d := doy - (153 * mp + 2) / 5 + 1 in
  let m := if mp <? 10 then mp + 3 else mp - 9 in
  ((if m <=? 2 then yoe + era * 400 + 1 else yoe + era * 400), m, d).

Definition nsPerSecond : Z := 1000000000.
Definition nsPerDay : Z := 86400 * nsPerSecond.

(** [time.Date(year, month, day, hour, min, sec, nsec, time.UTC)] *)
Definition Date (year month day hour min sec nsec : Z) : Time :=
  (daysFromCivil year month day * 86400 + hour * 3600 + min * 60 + sec)
  * nsPerSecond + nsec.

Definition isLeap (year : Z) : bool :=
  (year mod 4 =? 0) && (negb (year mod 100 =? 0) || (year mod 400 =? 0)).

Definition daysIn (month year : Z) : Z :=
  if month =? 2 then (if isLeap year then 29 else 28)
  else if (month =? 4) || (month =? 6) || (month =? 9) || (month =? 11) then 30
  else 31.

Definition digitChar (d : Z) : Ascii.ascii := Ascii.ascii_of_nat (48 + Z.to_nat d).

(** The decimal digits of [x >= 0], at least [width] of them. *)
Fixpoint digits (width : nat) (fuel : nat) (x : Z) (acc : string) : string :=
  match fuel with
  | O => acc
  | S fuel' =>
      let acc' := String (digitChar (x mod 10)) acc in
      if (x / 10 =? 0) && (width <=? 1)%nat then acc'
      else digits (Nat.pred width) fuel' (x / 10) acc'
  end.

(** [appendInt(b, x, width)] of package [time]. *)
Definition appendInt (x : Z) (width : nat) : string :=
  if x <? 0 then String "-" (digits width 20 (- x) "")
  else digits width 20 x "".

(** [t.Format("02-01-2006_15-04-05")], in UTC. *)
Definition Format (t : Time) : string :=
  let secs := t / nsPerSecond in
  let '(year, month, day) := civilFromDays (secs / 86400) in
  let sod := secs mod 86400 in
  appendInt day 2 +:+ "-" +:+ appendInt month 2 +:+ "-" +:+ appendInt year 4
  +:+ "_" +:+ appendInt (sod / 3600) 2 +:+ "-" +:+ appendInt (sod mod 3600 / 60) 2
  +:+ "-" +:+ appendInt (sod mod 60) 2.

Definition digitValue (c : Ascii.ascii) : option Z :=
  let n := Z.of_nat (Ascii.nat_of_ascii c) in
  if (48 <=? n) && (n <=? 57) then Some (n - 48) else None.

(** A fixed number of decimal digits at the head of the value. *)
Fixpoint getDigits (n : nat) (acc : Z) (value : list Ascii.ascii)
    : option (Z * list Ascii.ascii) :=
  match n with
  | O => Some (acc, value)
  | S n' =>
      match value with
      | c :: value' =>
          d ← digitValue c; getDigits n' (acc * 10 + d) value'
      | [] => None
      end
  end.

(** [getnum(value, false)]: one decimal digit, or two when a second one
    follows. *)
Definition getNum (value : list Ascii.ascii) : option (Z * list Ascii.ascii) :=
  match value with
  | c1 :: value' =>
      d1 ← digitValue c1;
      match value' with
      | c2 :: value'' =>
          match digitValue c2 with
          | Some d2 => Some (d1 * 10 + d2, value'')
          | None => Some (d1, value')
          end
      | [] => Some (d1, value')
      end
  | [] => None
  end.

Definition expect (c : Ascii.ascii) (value : list Ascii.ascii)
    : option (list Ascii.ascii) :=
  match value with
  | c' :: value' => if bool_decide (c = c') then Some value' else None
  | [] => None
  end.

Definition inRange (lo x hi : Z) : option unit :=
  if (lo <=? x) && (x <=? hi) then Some tt else None.

(** The digits of a fractional second that may follow the seconds: up to
    nine of them count, as nanoseconds. *)
Fixpoint fraction (scale : Z) (value : list Ascii.ascii) : Z * list Ascii.ascii :=
  match value with
  | c :: value' =>
      match digitValue c with
      | Some d =>
          let '(ns, rest) := fraction (scale / 10) value' in (d * scale + ns, rest)
      | None => (0, value)
      end
  | [] => (0, [])
  end.

Definition isCommaOrPeriod (c : Ascii.ascii) : bool :=
  bool_decide (c = "."%char) || bool_decide (c = ","%char).

Definition fractionalSecond (value : list Ascii.ascii) : Z * list Ascii.ascii :=
  match value with
  | sep :: c :: _ =>
      if isCommaOrPeriod sep && bool_decide (is_Some (digitValue c))
      then fraction 100000000 (tail value)
      else (0, value)
  | _ => (0, value)
  end.

Definition parseFields (value : list Ascii.ascii) : option Time :=
  '(day, value) ← getDigits 2 0 value;
  value ← expect "-"%char value;
  '(month, value) ← getDigits 2 0 value;
  _ ← inRange 1 month 12;
  value ← expect "-"%char value;
  '(year, value) ← getDigits 4 0 value;
  value ← expect "_"%char value;
  '(hour, value) ← getNum value;
  _ ← inRange 0 hour 23;
  value ← expect "-"%char value;
  '(min, value) ← getDigits 2 0 value;
  _ ← inRange 0 min 59;
  value ← expect "-"%char value;
  '(sec, value) ← getDigits 2 0 value;
  _ ← inRange 0 sec 59;
  let '(nsec, value) := fractionalSecond value in
  _ ← (if bool_decide (value = []) then Some tt else None);
  _ ← inRange 1 day (daysIn month year);
  Some (Date year month day hour min sec nsec).

(** [time.ParseInLocation("02-01-2006_15-04-05", value, time.UTC)] *)
Definition ParseInLocation (value : string) : Result Time :=
  match parseFields (String.list_ascii_of_string value) with
  | Some t => Ok t
  | None => Err ("parsing time " +:+ value)
  end.

(** [Time.MarshalJSON] refuses a year outside [0, 9999]. *)
Definition yearOf (t : Time) : Z :=
  let '(year, _, _) := civilFromDays (t / nsPerSecond / 86400) in year.

End Civil.

(** [json.MarshalIndent] of the hash table fails only on a time it cannot
    write. *)
Definition marshalError (m : gmap string HashStatus) : option error :=
  if bool_decide
       (map_Forall (λ _ st, (0 ≤ Civil.yearOf (LastActionTime st) ≤ 9999)%Z) m)
  then None
  else Some "Time.MarshalJSON: year outside of range [0,9999]".

(** The order [sort.Slice] leaves the slice in: [b] may follow [a] when [b]
    is not [less] than [a]. *)
Definition mayFollow {A : Type} (less : A → A → bool) : relation A :=
  λ a b, less b a = false.

#[export] Instance mayFollow_dec {A : Type} (less : A → A → bool) (a b : A) :
  Decision (mayFollow less a b) := decide (less b a = false).

#[export] Instance unixRuntime : GoRuntime := {|
  filepath_Base := Unix.Base;
  time_Format := Civil.Format;
  time_ParseInLocation := Civil.ParseInLocation;
  sort_Slice := λ A less, merge_sort (mayFollow less);
  json_MarshalIndent := marshalError
|}.

(** ** The process at start, and concrete inputs *)

(** [var hashManager = &HashManager{...}] *)
Definition initialHashManager : HashManager := mkHashManager ∅ "hashes.json".

(** [var backupStatus = &BackupStatus{...}] *)
Definition initialBackupStatus : BackupStatus := mkBackupStatus ∅ ∅ ∅ ∅.

Definition initialState (w : World) : State :=
  mkState w initialHashManager initialBackupStatus [].

Module Demo.

(** A job that backs up [/srv/games/data] every 30 minutes and keeps 2
    snapshots, with hash checking left at its default (enabled). *)
Definition job : BackupConfig.t :=
  BackupConfig.mk "saves" "/srv/games/data" "/backups" 30 2 None None None.

(** 10 August 2025, 14:30:15. *)
Definition now : Time := Civil.Date 2025 8 10 14 30 15 0.

Definition snapshot (name : string) (modified : Result Time) (rm : option error)
    : DirEntry :=
  mkDirEntry name true modified rm.

(** A world in which every operation succeeds and the source hashes to
    [h1:abc]. *)
Definition quiet (listing : list DirEntry) : World :=
  mkWorld now ∅ {[ "/backups" := Ok listing ]}
          (λ _, Ok "h1:abc") (λ _ _, None) (λ _ _ _, None) (λ _, None).

(** The same, but hashing the source fails. *)
Definition unhashable (listing : list DirEntry) : World :=
  mkWorld now ∅ {[ "/backups" := Ok listing ]}
          (λ _, Err "dirhash: filenames with newlines are not supported")
          (λ _ _, None) (λ _ _ _, None) (λ _, None).

(** The same as [quiet], but copying the tree fails. *)
Definition uncopyable (listing : list DirEntry) : World :=
  mkWorld now ∅ {[ "/backups" := Ok listing ]}
          (λ _, Ok "h1:abc") (λ _ _, None)
          (λ _ _ _, Some "permission denied") (λ _, None).

(** A world whose [hashes.json] is an empty file, which is not JSON. *)
Definition truncatedStore : World :=
  mkWorld now {[ "hashes.json" := FileMalformed "unexpected end of JSON input" ∅ ]}
          ∅ (λ _, Ok "h1:abc") (λ _ _, None) (λ _ _ _, None) (λ _, None).

(** A process whose store holds one record for the job. *)
Definition withRecord (w : World) (r : HashStatus) : State :=
  mkState w (mkHashManager {[ "saves" := r ]} "hashes.json") initialBackupStatus [].

End Demo.

(** ** Vocabulary of the statements *)

(** A function ends in a panic. *)
Definition panics {A} (o : Outcome A) : Prop :=
  match o with Panic _ _ => True | Done _ _ => False end.

(** [s'] is [s] up to the directory listings. *)
Definition sameButDirs (s s' : State) : Prop :=
  hashManager s' = hashManager s
  ∧ backupStatus s' = backupStatus s
  ∧ logs s' = logs s
  ∧ clock (world s') = clock (world s)
  ∧ files (world s') = files (world s)
  ∧ hashDir (world s') = hashDir (world s)
  ∧ mkdirAll (world s') = mkdirAll (world s)
  ∧ copyTree (world s') = copyTree (world s)
  ∧ writeFile (world s') = writeFile (world s).

(** The entries of a directory, none when it cannot be read. *)
Definition listing (dir : string) (s : State) : list DirEntry :=
  match dirs (world s) !! dir with
  | Some (Ok entries) => entries
  | _ => []
  end.

(** What [os.ReadDir] can return: entries with distinct names, in a slice. *)
Definition wfListing (entries : list DirEntry) : Prop :=
  NoDup (Name <$> entries) ∧ (Z.of_nat (length entries) ≤ 2 ^ 63 - 1)%Z.

(** The modification time of an entry whose [Info()] succeeds. *)
Definition ModTime (e : DirEntry) : option Time :=
  match Info e with Ok t => Some t | Err _ => None end.

(** Of the snapshots the loop of [cleanupOldBackups] is to delete, in order,
    those it deletes: the ones before the first whose deletion fails; and
    the error of that one, if any. *)
Fixpoint deletions (victims : list dirInfo) : list dirInfo * option error :=
  match victims with
  | [] => ([], None)
  | d :: victims' =>
      match RemoveAll (entry d) with
      | Some e => ([], Some e)
      | None => let '(deleted, err) := deletions victims' in (d :: deleted, err)
      end
  end.

(** A listing without the entries named in [deleted]. *)
Definition without (deleted : list dirInfo) (entries : list DirEntry) : list DirEntry :=
  filter (λ e, Name e ∉ (Name ∘ entry) <$> deleted) entries.

Section Vocabulary.
Context `{GoRuntime}.

(** The value [findLastBackupTime] computes, as a function of the world. *)
Definition latestSnapshot (config : BackupConfig.t) (w : World) : Time :=
  match dirs w !! BackupConfig.Destination config with
  | Some (Ok entries) =>
      foldl (findLastBackupTime_step (getSourceFolderName (BackupConfig.Source config)))
            zeroTime entries
  | _ => zeroTime
  end.

(** The value [startBackupScheduler] gives [effectiveLastTime], as a
    function of the state and of [lastBackupTime]. *)
Definition recoveredTime (config : BackupConfig.t) (lastBackupTime : Time)
    (s : State) : Time :=
  if IsHashCheckEnabled config then
    match hashes (hashManager s) !! BackupConfig.Name config with
    | Some r =>
        if bool_decide (LastActionType r = "skipped") && negb (IsZero (LastActionTime r))
        then
          match hashDir (world s) (BackupConfig.Source config) with
          | Err _ => lastBackupTime
          | Ok h => if bool_decide (h = LastHash r) then LastActionTime r else zeroTime
          end
        else lastBackupTime
    | None => lastBackupTime
    end
  else lastBackupTime.

(** The times [findLastBackupTime] reads off the names of the qualifying
    entries of a listing. *)
Definition parsedTimes (sourceFolderName : string) (entries : list DirEntry)
    : list Time :=
  omap (λ e, if qualifies sourceFolderName e then
               match time_ParseInLocation (timestampPart (Name e) sourceFolderName) with
               | Ok t => Some t
               | Err _ => None
               end
             else None) entries.

(** The modification times of the qualifying entries of a listing. *)
Definition modTimes (sourceFolderName : string) (entries : list DirEntry)
    : list Time :=
  omap (λ e, if qualifies sourceFolderName e then ModTime e else None) entries.

End Vocabulary.

(** * More of the program: configuration defaults and log files *)

(** ** config.go: the defaults [loadConfig] fills in *)

(** The loop at the end of [loadConfig], which gives every configuration
    read from [config.json] an [Enabled] and a [HashCheck] that are not
    [nil]; [LogRetentionDays] is left as read. *)
Definition defaultEnabled (bc : BackupConfig.t) : BackupConfig.t :=
  match BackupConfig.Enabled bc with
  | None =>
      BackupConfig.mk (BackupConfig.Name bc) (BackupConfig.Source bc)
        (BackupConfig.Destination bc) (BackupConfig.ScheduleMinutes bc)
        (BackupConfig.RotationCount bc) (Some true) (BackupConfig.HashCheck bc)
        (BackupConfig.LogRetentionDays bc)
  | Some _ => bc
  end.

Definition defaultHashCheck (bc : BackupConfig.t) : BackupConfig.t :=
  match BackupConfig.HashCheck bc with
  | None =>
      BackupConfig.mk (BackupConfig.Name bc) (BackupConfig.Source bc)
        (BackupConfig.Destination bc) (BackupConfig.ScheduleMinutes bc)
        (BackupConfig.RotationCount bc) (BackupConfig.Enabled bc) (Some true)
        (BackupConfig.LogRetentionDays bc)
  | Some _ => bc
  end.

Fixpoint applyDefaults (backups : list BackupConfig.t) : list BackupConfig.t :=
  match backups with
  | [] => []
  | bc :: rest => defaultHashCheck (defaultEnabled bc) :: applyDefaults rest
  end.

(** ** logger.go *)

(** [strings.HasSuffix(s, suffix)] *)
Definition strings_HasSuffix (s suffix : string) : bool :=
  (String.length suffix <=? String.length s)%nat
  && bool_decide (string_drop (String.length s - String.length suffix) s = suffix).

(** A byte that [\d] matches: an ASCII digit. *)
Definition isDigit (c : ascii) : bool :=
  (48 <=? nat_of_ascii c)%nat && (nat_of_ascii c <=? 57)%nat.

(** The strings that [\d{2}-\d{2}-\d{4}] matches in full. *)
Definition isDate (s : string) : bool :=
  match s with
  | String d1 (String d2 (String s1 (String m1 (String m2 (String s2
      (String y1 (String y2 (String y3 (String y4 EmptyString))))))))) =>
      isDigit d1 && isDigit d2 && bool_decide (s1 = "-"%char)
      && isDigit m1 && isDigit m2 && bool_decide (s2 = "-"%char)
      && isDigit y1 && isDigit y2 && isDigit y3 && isDigit y4
  | _ => false
  end.

(** [extractDateFromLogName(filename)].  The pattern
    [(\d{2}-\d{2}-\d{4})\.log$] matches 14 bytes and is anchored at the end
    of the text, so it can only match the last 14 bytes of the name; the
    group is the first 10 of them. *)
Definition extractDateFromLogName (filename : string) : string :=
  let n := String.length filename in
  if (n <? 14)%nat then ""
  else
    let tail := string_drop (n - 14) filename in
    if isDate (string_take 10 tail) && bool_decide (string_drop 10 tail = ".log")
    then string_take 10 tail
    else "".

(** What [logger.go] takes from the Go library and from the file system. *)
Class LogRuntime : Type := {
  (** [t.Format(LogDateFormat)] *)
  time_FormatDate : Time → string;
  (** [time.Parse(LogDateFormat, value)] *)
  time_ParseDate : string → Result Time;
  (** [t.AddDate(0, 0, days)] *)
  time_AddDate : Time → Z → Time;
  (** [filepath.Join(dir, name)] *)
  filepath_Join : string → string → string;
  (** the error, if any, of [os.Remove(path)] *)
  removeError : string → option error
}.

Section Logger.
Context `{LogRuntime}.

(** [getTodayLogPath(baseDir, prefix)]; [todayLogName] is its [fileName]. *)
Definition todayLogName (prefix : string) (now : Time) : string :=
  prefix +:+ "_" +:+ time_FormatDate now +:+ ".log".

Definition getTodayLogPath (baseDir prefix : string) : Go string :=
  now ← timeNow;
  let fileName := todayLogName prefix now in
  mret (filepath_Join baseDir fileName).

(** [os.Remove(filepath.Join(dir, entry.Name()))] for an entry listed in
    [dir]: either an error, or the entry leaves the listing. *)
Definition osRemove (dir : string) (entry : DirEntry) : Go (option error) :=
  match removeError (filepath_Join dir (Name entry)) with
  | Some e => mret (Some e)
  | None =>
      _ ← modify (set_world (set_dirs (λ d,
             match d !! dir with
             | Some (Ok entries) =>
                 <[dir := Ok (filter (λ e', Name e' ≠ Name entry) entries)]> d
             | _ => d
             end)));
      mret None
  end.

(** The body of the loop of [cleanupOldLogs].  The warning about a file
    that could not be deleted goes to standard output, which is not part of
    the state. *)
Definition cleanupLogEntry (logDir : string) (cutoffDate : Time) (entry : DirEntry)
    : Go unit :=
  if negb (strings_HasSuffix (Name entry) ".log") then mret tt
  else
    let dateStr := extractDateFromLogName (Name entry) in
    if bool_decide (dateStr ≠ "") then
      match time_ParseDate dateStr with
      | Ok logDate =>
          if Before logDate cutoffDate then
            _ ← osRemove logDir entry;
            mret tt
          else mret tt
      | Err _ => mret tt
      end
    else mret tt.

Fixpoint cleanupLogEntries (logDir : string) (cutoffDate : Time)
    (entries : list DirEntry) : Go unit :=
  match entries with
  | [] => mret tt
  | entry :: rest =>
      _ ← cleanupLogEntry logDir cutoffDate entry;
      cleanupLogEntries logDir cutoffDate rest
  end.

(** [cleanupOldLogs(logDir, retentionDays)] *)
Definition cleanupOldLogs (logDir : string) (retentionDays : Z) : Go (option error) :=
  r ← osReadDir logDir;
  match r with
  | Err err => mret (Some err)
  | Ok entries =>
      now ← timeNow;
      let cutoffDate := time_AddDate now (wrap64 (- retentionDays)) in
      _ ← cleanupLogEntries logDir cutoffDate entries;
      mret None
  end.

(** A log file name that [cleanupOldLogs] takes for older than the cutoff,
    and one that it removes. *)
Definition expiredLog (cutoffDate : Time) (name : string) : bool :=
  strings_HasSuffix name ".log"
  && bool_decide (extractDateFromLogName name ≠ "")
  && match time_ParseDate (extractDateFromLogName name) with
     | Ok logDate => Before logDate cutoffDate
     | Err _ => false
     end.

Definition removedLog (logDir : string) (cutoffDate : Time) (name : string) : bool :=
  expiredLog cutoffDate name
  && bool_decide (removeError (filepath_Join logDir name) = None).

End Logger.

(** The log dates of the Go library in UTC, and a file system on which every
    [os.Remove] succeeds but that of a path under [/logs/locked]. *)
Module LogUnix.

Local Open Scope Z_scope.

(** [t.Format("02-01-2006")], in UTC. *)
Definition FormatDate (t : Time) : string :=
  let '(year, month, day) := Civil.civilFromDays (t / Civil.nsPerSecond / 86400) in
  Civil.appendInt day 2 +:+ "-" +:+ Civil.appendInt month 2 +:+ "-"
  +:+ Civil.appendInt year 4.

Definition parseFields (value : list Ascii.ascii) : option Time :=
  '(day, value) ← Civil.getDigits 2 0 value;
  value ← Civil.expect "-"%char value;
  '(month, value) ← Civil.getDigits 2 0 value;
  _ ← Civil.inRange 1 month 12;
  value ← Civil.expect "-"%char value;
  '(year, value) ← Civil.getDigits 4 0 value;
  _ ← (if bool_decide (value = []) then Some tt else None);
  _ ← Civil.inRange 1 day (Civil.daysIn month year);
  Some (Civil.Date year month day 0 0 0 0).

(** [time.Parse("02-01-2006", value)] *)
Definition ParseDate (value : string) : Result Time :=
  match parseFields (String.list_ascii_of_string value) with
  | Some t => Ok t
  | None => Err ("parsing time " +:+ value)
  end.

(** [t.AddDate(0, 0, days)], in UTC. *)
Definition AddDate (t : Time) (days : Z) : Time := t + days * Civil.nsPerDay.

(** [filepath.Join] of a clean directory and a file name. *)
Definition Join (dir name : string) : string := dir +:+ "/" +:+ name.

Definition locked (path : string) : option error :=
  if bool_decide (string_take 13 path = "/logs/locked/")
  then Some "remove: permission denied"
  else None.

End LogUnix.

#[export] Instance unixLogRuntime : LogRuntime := {|
  time_FormatDate := LogUnix.FormatDate;
  time_ParseDate := LogUnix.ParseDate;
  time_AddDate := LogUnix.AddDate;
  filepath_Join := LogUnix.Join;
  removeError := LogUnix.locked
|}.

(** A regular file of a log directory. *)
Definition logFile (name : string) : DirEntry :=
  mkDirEntry name false (Ok zeroTime) None.

(** A world whose only directory is a log directory. *)
Definition logWorld (logDir : string) (entries : list DirEntry) : World :=
  mkWorld Demo.now ∅ {[ logDir := Ok entries ]}
          (λ _, Ok "h1:abc") (λ _ _, None) (λ _ _ _, None) (λ _, None).

(** * Proofs *)

(** ** Examples of the definitions at work *)

Example Base_data : Unix.Base "/srv/games/data/" = "data".
Proof. reflexivity. Qed.

Example Date_zero : Civil.Date 1 1 1 0 0 0 0 = zeroTime.
Proof. reflexivity. Qed.

Example Format_reference :
  Civil.Format (Civil.Date 2006 1 2 15 4 5 0) = BackupTimestampFormat.
Proof. vm_compute. reflexivity. Qed.

Example Parse_reference :
  Civil.ParseInLocation BackupTimestampFormat = Ok (Civil.Date 2006 1 2 15 4 5 0).
Proof. vm_compute. reflexivity. Qed.

Example Parse_bad_day : ∃ e, Civil.ParseInLocation "31-02-2025_10-00-00" = Err e.
Proof. eexists. vm_compute. reflexivity. Qed.

Example generateBackupDirName_example :
  generateBackupDirName "/srv/games/data" (Civil.Date 2025 8 10 14 30 15 0)
  = "10-08-2025_14-30-15_data".
Proof. vm_compute. reflexivity. Qed.
(** ** Facts on slicing *)

Lemma string_app_cons c (p s : string) : String c p +:+ s = String c (p +:+ s).
Proof. reflexivity. Qed.

Lemma string_app_nil (s : string) : EmptyString +:+ s = s.
Proof. reflexivity. Qed.

Lemma string_take_drop n s : string_take n s +:+ string_drop n s = s.
Proof.
  revert s; induction n as [|n IH]; intros [|c s]; simpl; try reflexivity.
  by rewrite string_app_cons, IH.
Qed.

Lemma string_drop_app p s : string_drop (String.length p) (p +:+ s) = s.
Proof.
  induction p as [|c p IH]; [reflexivity |].
  rewrite string_app_cons. exact IH.
Qed.

Lemma string_take_app p s : string_take (String.length p) (p +:+ s) = p.
Proof.
  induction p as [|c p IH]; [reflexivity |].
  rewrite string_app_cons. simpl. by rewrite IH.
Qed.

Lemma string_take_length n s :
  String.length (string_take n s) = Nat.min n (String.length s).
Proof.
  revert s; induction n as [|n IH]; intros [|c s]; simpl; try reflexivity.
  by rewrite IH.
Qed.

Lemma string_drop_length n s :
  String.length (string_drop n s) = (String.length s - n)%nat.
Proof.
  revert s; induction n as [|n IH]; intros [|c s]; simpl; try reflexivity.
  by rewrite IH.
Qed.

Lemma string_app_length (p s : string) :
  String.length (p +:+ s) = (String.length p + String.length s)%nat.
Proof.
  induction p as [|c p IH]; [reflexivity |].
  rewrite string_app_cons. simpl. by rewrite IH.
Qed.

(** A name ends with [sfn] exactly when dropping all but the last
    [len(sfn)] bytes leaves [sfn]. *)
Lemma string_suffix_drop (name sfn : string) :
  (String.length sfn ≤ String.length name)%nat →
  string_drop (String.length name - String.length sfn) name = sfn
  ↔ ∃ p, name = p +:+ sfn.
Proof.
  intros Hlen; split.
  - intros Hd.
    exists (string_take (String.length name - String.length sfn) name).
    pose proof (string_take_drop (String.length name - String.length sfn) name) as Htd.
    rewrite Hd in Htd. by rewrite Htd.
  - intros [p ->]. rewrite string_app_length.
    replace (String.length p + String.length sfn - String.length sfn)%nat
      with (String.length p) by lia.
    apply string_drop_app.
Qed.

Lemma isBackupDirectory_spec (dirName sfn : string) :
  isBackupDirectory dirName sfn = true
  ↔ (String.length sfn + 20 ≤ String.length dirName)%nat
    ∧ ∃ p, dirName = p +:+ sfn.
Proof.
  unfold isBackupDirectory.
  destruct (Nat.ltb_spec (String.length dirName) (String.length sfn + 20)) as [Hlt|Hge].
  - split; [discriminate | intros [? _]; lia].
  - rewrite bool_decide_eq_true, string_suffix_drop by lia.
    split; [intros ?; split; [lia | assumption] | intros [_ ?]; assumption].
Qed.

Lemma timestampPart_length (dirName sfn : string) :
  String.length (timestampPart dirName sfn)
  = (String.length dirName - String.length sfn - 1)%nat.
Proof. unfold timestampPart. rewrite string_take_length. lia. Qed.

(** C9. A directory entry qualifies as a snapshot of a source folder exactly
    when it is a directory, its name ends with the source folder name, and
    the prefix left after stripping that name and one separator byte is at
    least as long as the timestamp encoding [BackupTimestampFormat]. *)
Theorem qualifies_iff (sourceFolderName : string) (entry : DirEntry) :
  qualifies sourceFolderName entry = true
  ↔ IsDir entry = true
    ∧ (∃ p, Name entry = p +:+ sourceFolderName)
    ∧ (String.length BackupTimestampFormat
       ≤ String.length (timestampPart (Name entry) sourceFolderName))%nat.
Proof.
  unfold qualifies.
  rewrite andb_true_iff, isBackupDirectory_spec, timestampPart_length.
  change (String.length BackupTimestampFormat) with 19%nat.
  split.
  - intros (Hd & Hlen & Hsuf). repeat split; [assumption.. | lia].
  - intros (Hd & Hsuf & Hlen). repeat split; [assumption | lia | assumption].
Qed.

(** ** The monad *)

Ltac go_unfold :=
  unfold mbind, mret, Go_bind, Go_ret, get, gets, modify, panic, timeNow, logPrintf.

Ltac go_simpl := go_unfold; simpl.

Lemma bind_Done {A B} (m : Go A) (f : A → Go B) s a s' :
  m s = Done a s' → (m ≫= f) s = f a s'.
Proof. intros Hm. unfold mbind, Go_bind. by rewrite Hm. Qed.

Lemma bind_Panic {A B} (m : Go A) (f : A → Go B) s msg s' :
  m s = Panic msg s' → (m ≫= f) s = Panic msg s'.
Proof. intros Hm. unfold mbind, Go_bind. by rewrite Hm. Qed.

Section EngineProofs.
Context `{GoRuntime}.

(** *** deduplication.go *)

Lemma calculateDirectoryHash_eq dirPath s :
  calculateDirectoryHash dirPath s = Done (hashDir (world s) dirPath) s.
Proof. reflexivity. Qed.

Lemma shouldSkipBackup_eq configName sourcePath s :
  shouldSkipBackup configName sourcePath s
  = Done (match hashDir (world s) sourcePath with
          | Err err => Err err
          | Ok currentHash =>
              match hashes (hashManager s) !! configName with
              | None => Ok false
              | Some lastStatus => Ok (bool_decide (currentHash = LastHash lastStatus))
              end
          end) s.
Proof.
  unfold shouldSkipBackup. go_simpl. unfold calculateDirectoryHash. go_simpl.
  destruct (hashDir (world s) sourcePath); [|reflexivity].
  by destruct (hashes (hashManager s) !! configName).
Qed.

Lemma saveToFile_frame s :
  ∃ r s', saveToFile s = Done r s'
    ∧ hashManager s' = hashManager s
    ∧ backupStatus s' = backupStatus s
    ∧ logs s' = logs s
    ∧ hashDir (world s') = hashDir (world s)
    ∧ dirs (world s') = dirs (world s)
    ∧ clock (world s') = clock (world s).
Proof.
  unfold saveToFile. go_simpl.
  destruct (json_MarshalIndent _); [by eauto 10|].
  destruct (writeFile _ _) as [[e [remains|]]|]; by eauto 10.
Qed.

Lemma recordAction_ok configName sourcePath actionType s h :
  hashDir (world s) sourcePath = Ok h →
  ∃ r s', recordAction configName sourcePath actionType s = Done r s'
    ∧ hashes (hashManager s')
      = <[configName := mkHashStatus h actionType (clock (world s))]> (hashes (hashManager s))
    ∧ filePath (hashManager s') = filePath (hashManager s)
    ∧ backupStatus s' = backupStatus s
    ∧ logs s' = logs s
    ∧ hashDir (world s') = hashDir (world s)
    ∧ dirs (world s') = dirs (world s)
    ∧ clock (world s') = clock (world s).
Proof.
  intros Hh. unfold recordAction. go_simpl. unfold calculateDirectoryHash. go_simpl.
  rewrite Hh.
  match goal with |- context [saveToFile ?s1] =>
    destruct (saveToFile_frame s1) as (r & s' & -> & Hhm & Hbs & Hl & Hd & Hdirs & Hc)
  end.
  exists r, s'. rewrite Hhm, Hbs, Hl, Hd, Hdirs, Hc. simpl. by eauto 10.
Qed.

Lemma recordAction_err configName sourcePath actionType s err :
  hashDir (world s) sourcePath = Err err →
  recordAction configName sourcePath actionType s = Done (Some err) s.
Proof.
  intros Herr. unfold recordAction. go_simpl.
  unfold calculateDirectoryHash. go_simpl. by rewrite Herr.
Qed.

(** C10. [recordAction] hashes the source tree when it is called.  If that
    fails, it returns the error and changes nothing: the store entry of the
    job, the durable file, and all the rest of the state are as before.  If
    it succeeds, the entry written carries the fingerprint just computed. *)
Theorem recordAction_recomputes_or_leaves (configName sourcePath actionType : string)
    (s : State) :
  (∀ err, hashDir (world s) sourcePath = Err err →
     recordAction configName sourcePath actionType s = Done (Some err) s)
  ∧ (∀ h, hashDir (world s) sourcePath = Ok h →
     ∃ r s', recordAction configName sourcePath actionType s = Done r s'
       ∧ hashes (hashManager s') !! configName
         = Some (mkHashStatus h actionType (clock (world s)))).
Proof.
  split.
  - intros err. apply recordAction_err.
  - intros h Hh.
    destruct (recordAction_ok configName sourcePath actionType s h Hh)
      as (r & s' & Hrun & Hhashes & _).
    exists r, s'. split; [exact Hrun|]. rewrite Hhashes. apply lookup_insert_eq.
Qed.

End EngineProofs.

Lemma recordAction_recomputes_or_leaves_witness :
  let s := Demo.withRecord (Demo.unhashable [])
             (mkHashStatus "h1:abc" "backup" Demo.now) in
  recordAction "saves" "/srv/games/data" "skipped" s
  = Done (Some "dirhash: filenames with newlines are not supported") s.
Proof.
  intros s.
  apply (proj1 (recordAction_recomputes_or_leaves "saves" "/srv/games/data" "skipped" s)).
  reflexivity.
Defined.

(** ** States that differ in the directory listings only *)

Lemma sameButDirs_refl s : sameButDirs s s.
Proof. by repeat split. Qed.

Lemma sameButDirs_trans s1 s2 s3 :
  sameButDirs s1 s2 → sameButDirs s2 s3 → sameButDirs s1 s3.
Proof.
  unfold sameButDirs. intros (?&?&?&?&?&?&?&?&?) (?&?&?&?&?&?&?&?&?).
  repeat split; congruence.
Qed.

Lemma sameButDirs_set_dirs f s : sameButDirs s (set_world (set_dirs f) s).
Proof. by repeat split. Qed.

Lemma osRemoveAll_Done dir e s :
  ∃ r s', osRemoveAll dir e s = Done r s' ∧ sameButDirs s s'.
Proof.
  unfold osRemoveAll. destruct (RemoveAll e).
  - exists (Some e0), s. split; [reflexivity | apply sameButDirs_refl].
  - go_simpl. eexists _, _. split; [reflexivity | apply sameButDirs_set_dirs].
Qed.

Lemma osMkdirAll_Done dir name s :
  ∃ r s', osMkdirAll dir name s = Done r s' ∧ sameButDirs s s'
    ∧ r = mkdirAll (world s) dir name
    ∧ (r ≠ None → s' = s).
Proof.
  unfold osMkdirAll. go_simpl. destruct (mkdirAll (world s) dir name) as [e|].
  - exists (Some e), s. by repeat split.
  - eexists None, _. split; [reflexivity|].
    split; [apply sameButDirs_set_dirs|]. by split.
Qed.

Section FrameProofs.
Context `{GoRuntime}.

Lemma deleteOldest_frame dest dirInfos remaining : ∀ i s,
  sameButDirs s (finalState (deleteOldest dest dirInfos i remaining s)).
Proof.
  induction remaining as [|n IH]; intros i s; simpl.
  - apply sameButDirs_refl.
  - destruct (dirInfos !! i) as [d|]; [|apply sameButDirs_refl].
    destruct (osRemoveAll_Done dest (entry d) s) as (r & s' & Hrm & Hsame).
    rewrite (bind_Done _ _ _ _ _ Hrm).
    destruct r as [e|]; [exact Hsame|].
    eapply sameButDirs_trans; [exact Hsame | apply IH].
Qed.

Lemma cleanupOldBackups_frame config s :
  sameButDirs s (finalState (cleanupOldBackups config s)).
Proof.
  unfold cleanupOldBackups, osReadDir. go_simpl.
  destruct (match dirs (world s) !! BackupConfig.Destination config with
            | Some r => r | None => Err _ end) as [entries|e];
    [|apply sameButDirs_refl].
  destruct (_ <=? _)%Z; [apply sameButDirs_refl|].
  apply deleteOldest_frame.
Qed.

Lemma updateBackupCompleted_eq configName m s :
  updateBackupCompleted configName m s
  = Done tt (set_backupStatus (λ bs,
      mkBackupStatus
        (<[configName := clock (world s)]> (lastBackupTimes bs))
        (<[configName := Add (clock (world s)) (minutes m)]> (nextBackupTimes bs))
        (<[configName := m]> (scheduleMinutes bs))
        (<[configName := configName]> (configNames bs))) s).
Proof. reflexivity. Qed.

(** *** [performBackup], step by step *)

Lemma performBackup_mkdir_fails config s e :
  mkdirAll (world s) (BackupConfig.Destination config)
    (generateBackupDirName (BackupConfig.Source config) (clock (world s))) = Some e →
  performBackup config s = Done (Some ("failed to create backup directory: " +:+ e)) s.
Proof.
  intros He. unfold performBackup.
  rewrite (bind_Done timeNow _ s (clock (world s)) s eq_refl).
  destruct (osMkdirAll_Done (BackupConfig.Destination config)
              (generateBackupDirName (BackupConfig.Source config) (clock (world s))) s)
    as (r & s1 & Hmk & _ & Hr & Hsame).
  rewrite (bind_Done _ _ _ _ _ Hmk). rewrite He in Hr. subst r.
  rewrite Hsame by discriminate. reflexivity.
Qed.

Lemma performBackup_copy_fails config s s1 e :
  let dest := BackupConfig.Destination config in
  let name := generateBackupDirName (BackupConfig.Source config) (clock (world s)) in
  osMkdirAll dest name s = Done None s1 →
  copyTree (world s1) (BackupConfig.Source config) dest name = Some e →
  performBackup config s = Done (Some ("failed to copy files: " +:+ e)) s1.
Proof.
  intros dest name Hmk Hcp. unfold performBackup.
  rewrite (bind_Done timeNow _ s (clock (world s)) s eq_refl).
  fold dest name. rewrite (bind_Done _ _ _ _ _ Hmk).
  unfold copyDir. go_simpl. fold dest name. by rewrite Hcp.
Qed.

Lemma performBackup_after_copy config s s1 :
  let dest := BackupConfig.Destination config in
  let name := generateBackupDirName (BackupConfig.Source config) (clock (world s)) in
  osMkdirAll dest name s = Done None s1 →
  copyTree (world s1) (BackupConfig.Source config) dest name = None →
  performBackup config s
  = (err ← cleanupOldBackups config;
     match err with
     | Some e => mret (Some ("failed to cleanup old backups: " +:+ e))
     | None =>
         _ ← updateBackupCompleted (BackupConfig.Name config)
               (BackupConfig.ScheduleMinutes config);
         _ ← (if IsHashCheckEnabled config then
                err ← recordAction (BackupConfig.Name config)
                        (BackupConfig.Source config) "backup";
                match err with
                | Some e => logPrintf (LogFailedRecordBackup (BackupConfig.Name config) e)
                | None => mret tt
                end
              else mret tt);
         mret None
     end) s1.
Proof.
  intros dest name Hmk Hcp. unfold performBackup.
  rewrite (bind_Done timeNow _ s (clock (world s)) s eq_refl).
  fold dest name. rewrite (bind_Done _ _ _ _ _ Hmk).
  rewrite (bind_Done (copyDir _ _ _) _ s1 None s1);
    [reflexivity | unfold copyDir; go_simpl; fold dest name; by rewrite Hcp].
Qed.

Lemma performBackup_cleanup_fails config s s1 s2 e :
  let dest := BackupConfig.Destination config in
  let name := generateBackupDirName (BackupConfig.Source config) (clock (world s)) in
  osMkdirAll dest name s = Done None s1 →
  copyTree (world s1) (BackupConfig.Source config) dest name = None →
  cleanupOldBackups config s1 = Done (Some e) s2 →
  performBackup config s = Done (Some ("failed to cleanup old backups: " +:+ e)) s2.
Proof.
  intros dest name Hmk Hcp Hcl.
  rewrite (performBackup_after_copy config s s1 Hmk Hcp).
  by rewrite (bind_Done _ _ _ _ _ Hcl).
Qed.

Lemma performBackup_cleanup_panics config s s1 msg s2 :
  let dest := BackupConfig.Destination config in
  let name := generateBackupDirName (BackupConfig.Source config) (clock (world s)) in
  osMkdirAll dest name s = Done None s1 →
  copyTree (world s1) (BackupConfig.Source config) dest name = None →
  cleanupOldBackups config s1 = Panic msg s2 →
  performBackup config s = Panic msg s2.
Proof.
  intros dest name Hmk Hcp Hcl.
  rewrite (performBackup_after_copy config s s1 Hmk Hcp).
  by rewrite (bind_Panic _ _ _ _ _ Hcl).
Qed.

(** After a successful retention step nothing can fail any more. *)
Lemma performBackup_cleanup_ok config s s1 s2 :
  let dest := BackupConfig.Destination config in
  let name := generateBackupDirName (BackupConfig.Source config) (clock (world s)) in
  osMkdirAll dest name s = Done None s1 →
  copyTree (world s1) (BackupConfig.Source config) dest name = None →
  cleanupOldBackups config s1 = Done None s2 →
  ∃ s3, performBackup config s = Done None s3
    ∧ hashDir (world s3) = hashDir (world s)
    ∧ (IsHashCheckEnabled config = true →
       ∀ h, hashDir (world s) (BackupConfig.Source config) = Ok h →
         hashes (hashManager s3) !! BackupConfig.Name config
         = Some (mkHashStatus h "backup" (clock (world s)))).
Proof.
  intros dest name Hmk Hcp Hcl.
  rewrite (performBackup_after_copy config s s1 Hmk Hcp).
  rewrite (bind_Done _ _ _ _ _ Hcl).
  destruct (osMkdirAll_Done dest name s) as (r & s1' & Hmk' & Hsame1 & _).
  rewrite Hmk in Hmk'. injection Hmk' as <- <-.
  pose proof (cleanupOldBackups_frame config s1) as Hsame2.
  rewrite Hcl in Hsame2. simpl in Hsame2.
  pose proof (sameButDirs_trans _ _ _ Hsame1 Hsame2) as (Hhm & _ & _ & Hclock & _ & Hhd & _).
  cbv beta iota.
  rewrite (bind_Done _ _ s2 tt _ (updateBackupCompleted_eq _ _ s2)).
  destruct (IsHashCheckEnabled config) eqn:Hen.
  - set (s2' := set_backupStatus _ s2).
    destruct (hashDir (world s) (BackupConfig.Source config)) as [h|err] eqn:Hh.
    + destruct (recordAction_ok (BackupConfig.Name config) (BackupConfig.Source config)
                  "backup" s2' h) as (r & s3 & Hrec & Hhashes & _ & _ & _ & Hhd3 & _).
      { simpl. rewrite Hhd. exact Hh. }
      destruct r as [e|].
      * eexists. go_unfold. rewrite Hrec. simpl. split; [reflexivity|].
        simpl. split; [rewrite Hhd3; simpl; exact Hhd|]. intros _ h' [= <-].
        rewrite Hhashes. simpl. rewrite Hclock. apply lookup_insert_eq.
      * eexists. go_unfold. rewrite Hrec. simpl. split; [reflexivity|].
        split; [rewrite Hhd3; simpl; exact Hhd|]. intros _ h' [= <-].
        rewrite Hhashes. simpl. rewrite Hclock. apply lookup_insert_eq.
    + assert (recordAction (BackupConfig.Name config) (BackupConfig.Source config)
                "backup" s2' = Done (Some err) s2') as Hrec.
      { apply recordAction_err. simpl. rewrite Hhd. exact Hh. }
      eexists. go_unfold. rewrite Hrec. simpl. split; [reflexivity|].
      split; [simpl; exact Hhd|]. intros _ h' [=].
  - eexists. go_simpl. split; [reflexivity|]. split; [simpl; exact Hhd|]. discriminate.
Qed.

End FrameProofs.

Section TickProofs.
Context `{GoRuntime}.

(** The ways a tick that copies can end. *)
Lemma performBackup_cases config s :
  let dest := BackupConfig.Destination config in
  let name := generateBackupDirName (BackupConfig.Source config) (clock (world s)) in
  (∃ e, mkdirAll (world s) dest name = Some e)
  ∨ ∃ s1, osMkdirAll dest name s = Done None s1 ∧ sameButDirs s s1
      ∧ ((∃ e, copyTree (world s1) (BackupConfig.Source config) dest name = Some e)
         ∨ (copyTree (world s1) (BackupConfig.Source config) dest name = None
            ∧ ∃ o, cleanupOldBackups config s1 = o ∧ sameButDirs s (finalState o))).
Proof.
  intros dest name.
  destruct (osMkdirAll_Done dest name s) as (r & s1 & Hmk & Hsame & Hr & _).
  destruct (mkdirAll (world s) dest name) as [e|] eqn:He; [left; by eauto|].
  subst r. right. exists s1. split; [exact Hmk|]. split; [exact Hsame|].
  destruct (copyTree (world s1) (BackupConfig.Source config) dest name) as [e|] eqn:Hcp;
    [left; by eauto|].
  right. split; [reflexivity|]. eexists; split; [reflexivity|].
  eapply sameButDirs_trans; [exact Hsame | apply cleanupOldBackups_frame].
Qed.

(** C5. A tick that copies and fails at creating the snapshot directory, at
    copying the tree, or at the retention step returns that step's error
    (wrapped) to its caller; and whenever such a tick does not end in
    success, the status table, the store of [hashManager] and the durable
    file are exactly as before: they change only once the copy and the
    retention step have both succeeded. *)
Theorem performBackup_failure_leaves_status_and_store
    (config : BackupConfig.t) (s : State) :
  let dest := BackupConfig.Destination config in
  let name := generateBackupDirName (BackupConfig.Source config) (clock (world s)) in
  (∀ e, mkdirAll (world s) dest name = Some e →
     performBackup config s
     = Done (Some ("failed to create backup directory: " +:+ e)) s)
  ∧ (∀ s1 e,
       osMkdirAll dest name s = Done None s1 →
       copyTree (world s1) (BackupConfig.Source config) dest name = Some e →
       performBackup config s = Done (Some ("failed to copy files: " +:+ e)) s1)
  ∧ (∀ s1 s2 e,
       osMkdirAll dest name s = Done None s1 →
       copyTree (world s1) (BackupConfig.Source config) dest name = None →
       cleanupOldBackups config s1 = Done (Some e) s2 →
       performBackup config s
       = Done (Some ("failed to cleanup old backups: " +:+ e)) s2)
  ∧ ((∀ s', performBackup config s ≠ Done None s') →
       backupStatus (finalState (performBackup config s)) = backupStatus s
       ∧ hashManager (finalState (performBackup config s)) = hashManager s
       ∧ files (world (finalState (performBackup config s))) = files (world s)).
Proof.
  intros dest name. split; [|split; [|split]].
  - intros e. apply performBackup_mkdir_fails.
  - intros s1 e. apply performBackup_copy_fails.
  - intros s1 s2 e. apply performBackup_cleanup_fails.
  - intros Hfail.
    destruct (performBackup_cases config s) as [[e He]|(s1 & Hmk & Hs1 & Hrest)].
    + by rewrite (performBackup_mkdir_fails config s e He).
    + destruct Hrest as [[e Hcp]|(Hcp & o & Ho & Hso)].
      * rewrite (performBackup_copy_fails config s s1 e Hmk Hcp). simpl.
        destruct Hs1 as (?&?&_&_&?&_). by repeat split.
      * destruct o as [[e|] s2|msg s2].
        -- rewrite (performBackup_cleanup_fails config s s1 s2 e Hmk Hcp Ho). simpl.
           destruct Hso as (?&?&_&_&?&_). by repeat split.
        -- destruct (performBackup_cleanup_ok config s s1 s2 Hmk Hcp Ho) as (s3 & Hok & _).
           by destruct (Hfail s3).
        -- rewrite (performBackup_cleanup_panics config s s1 msg s2 Hmk Hcp Ho). simpl.
           destruct Hso as (?&?&_&_&?&_). by repeat split.
Qed.

(** A tick that copies and succeeds went through all three steps, and with
    hash checking on it has recorded the fingerprint of the source. *)
Lemma performBackup_success config s s3 :
  performBackup config s = Done None s3 →
  hashDir (world s3) = hashDir (world s)
  ∧ (IsHashCheckEnabled config = true →
     ∀ h, hashDir (world s) (BackupConfig.Source config) = Ok h →
       hashes (hashManager s3) !! BackupConfig.Name config
       = Some (mkHashStatus h "backup" (clock (world s)))).
Proof.
  intros Hrun.
  destruct (performBackup_cases config s) as [[e He]|(s1 & Hmk & Hs1 & Hrest)].
  - rewrite (performBackup_mkdir_fails config s e He) in Hrun. discriminate.
  - destruct Hrest as [[e Hcp]|(Hcp & o & Ho & Hso)].
    + rewrite (performBackup_copy_fails config s s1 e Hmk Hcp) in Hrun. discriminate.
    + destruct o as [[e|] s2|msg s2].
      * rewrite (performBackup_cleanup_fails config s s1 s2 e Hmk Hcp Ho) in Hrun.
        discriminate.
      * destruct (performBackup_cleanup_ok config s s1 s2 Hmk Hcp Ho) as (s3' & Hok & Hres).
        rewrite Hok in Hrun. injection Hrun as <-. exact Hres.
      * rewrite (performBackup_cleanup_panics config s s1 msg s2 Hmk Hcp Ho) in Hrun.
        discriminate.
Qed.

(** [executeBackup] by cases on the fingerprint and the stored record. *)
Lemma executeBackup_eq config s :
  executeBackup config s
  = if IsHashCheckEnabled config then
      match hashDir (world s) (BackupConfig.Source config) with
      | Err err =>
          performBackup config
            (set_logs (λ l, l ++ [LogHashCheckFailedProceeding (BackupConfig.Name config) err]) s)
      | Ok currentHash =>
          match hashes (hashManager s) !! BackupConfig.Name config with
          | None => performBackup config s
          | Some lastStatus =>
              if bool_decide (currentHash = LastHash lastStatus)
              then skipBackup config s
              else performBackup config s
          end
      end
    else performBackup config s.
Proof.
  unfold executeBackup. destruct (IsHashCheckEnabled config); [|reflexivity].
  rewrite (bind_Done _ _ _ _ _ (shouldSkipBackup_eq _ _ s)).
  destruct (hashDir (world s) (BackupConfig.Source config)) as [h|err]; [|reflexivity].
  destruct (hashes (hashManager s) !! BackupConfig.Name config) as [st|]; [|reflexivity].
  by destruct (bool_decide (h = LastHash st)).
Qed.

(** C6. With hash checking on: when the fingerprint cannot be computed the
    tick logs the failure and is the full copy (its result is the copy's,
    never the hash error, never a skip); when no record is stored it is the
    copy; when a record is stored it is the skip exactly when the
    fingerprint just computed equals the stored one, and the copy
    otherwise. *)
Theorem executeBackup_decision (config : BackupConfig.t) (s : State) :
  IsHashCheckEnabled config = true →
  (∀ err, hashDir (world s) (BackupConfig.Source config) = Err err →
     executeBackup config s
     = performBackup config
         (set_logs (λ l, l ++ [LogHashCheckFailedProceeding (BackupConfig.Name config) err]) s))
  ∧ (∀ h, hashDir (world s) (BackupConfig.Source config) = Ok h →
       hashes (hashManager s) !! BackupConfig.Name config = None →
       executeBackup config s = performBackup config s)
  ∧ (∀ h lastStatus,
       hashDir (world s) (BackupConfig.Source config) = Ok h →
       hashes (hashManager s) !! BackupConfig.Name config = Some lastStatus →
       (h = LastHash lastStatus → executeBackup config s = skipBackup config s)
       ∧ (h ≠ LastHash lastStatus → executeBackup config s = performBackup config s)).
Proof.
  intros Hen. rewrite executeBackup_eq, Hen. split; [|split].
  - by intros err ->.
  - by intros h -> ->.
  - intros h st -> ->. split; intros Hh.
    + by rewrite bool_decide_eq_true_2.
    + by rewrite bool_decide_eq_false_2.
Qed.

(** The skip branch leaves a record with the fingerprint it recomputed. *)
Lemma skipBackup_records config s h :
  hashDir (world s) (BackupConfig.Source config) = Ok h →
  ∃ s1, skipBackup config s = Done None s1
    ∧ hashes (hashManager s1) !! BackupConfig.Name config
      = Some (mkHashStatus h "skipped" (clock (world s))).
Proof.
  intros Hh. unfold skipBackup.
  rewrite (bind_Done (logPrintf _) _ s tt _ eq_refl).
  set (s' := set_logs _ s).
  destruct (recordAction_ok (BackupConfig.Name config) (BackupConfig.Source config)
              "skipped" s' h Hh) as (r & s1 & Hrec & Hhashes & _).
  rewrite (bind_Done _ _ _ _ _ Hrec).
  assert (Hlook : hashes (hashManager s1) !! BackupConfig.Name config
                  = Some (mkHashStatus h "skipped" (clock (world s)))).
  { rewrite Hhashes. apply lookup_insert_eq. }
  destruct r as [e|]; go_simpl; eexists; (split; [reflexivity | exact Hlook]).
Qed.

(** C8 (as amended). With hash checking on and a source whose fingerprint
    can be computed: after a run of the tick that succeeded, whether it
    copied or skipped, a second run with the content of the source
    unchanged is the skip. *)
Theorem second_run_is_skip (config : BackupConfig.t) (s s1 s2 : State) (h : string) :
  IsHashCheckEnabled config = true →
  hashDir (world s) (BackupConfig.Source config) = Ok h →
  executeBackup config s = Done None s1 →
  hashManager s2 = hashManager s1 →
  hashDir (world s2) (BackupConfig.Source config)
    = hashDir (world s) (BackupConfig.Source config) →
  executeBackup config s2 = skipBackup config s2.
Proof.
  intros Hen Hh Hfirst Hhm Hsame.
  assert (Hrec : ∃ st, hashes (hashManager s1) !! BackupConfig.Name config = Some st
                       ∧ LastHash st = h).
  { rewrite executeBackup_eq, Hen, Hh in Hfirst.
    destruct (hashes (hashManager s) !! BackupConfig.Name config) as [st|].
    - destruct (bool_decide (h = LastHash st)).
      + destruct (skipBackup_records config s h Hh) as (s1' & Hskip & Hlook).
        rewrite Hskip in Hfirst. injection Hfirst as <-. by eauto.
      + destruct (performBackup_success config s s1 Hfirst) as [_ Hlook].
        rewrite (Hlook Hen h Hh). by eauto.
    - destruct (performBackup_success config s s1 Hfirst) as [_ Hlook].
      rewrite (Hlook Hen h Hh). by eauto. }
  destruct Hrec as (st & Hst & Hlast).
  rewrite executeBackup_eq, Hen, Hsame, Hh, Hhm, Hst.
  by rewrite bool_decide_eq_true_2.
Qed.

End TickProofs.

Lemma performBackup_failure_leaves_status_and_store_witness :
  let s := initialState (Demo.uncopyable []) in
  ∃ s1, performBackup Demo.job s
        = Done (Some "failed to copy files: permission denied") s1
    ∧ backupStatus s1 = backupStatus s ∧ hashManager s1 = hashManager s.
Proof.
  intros s.
  exists (finalState (osMkdirAll "/backups"
                        (generateBackupDirName "/srv/games/data" Demo.now) s)).
  split.
  - apply (proj1 (proj2 (performBackup_failure_leaves_status_and_store Demo.job s))
             _ "permission denied"); vm_compute; reflexivity.
  - split; reflexivity.
Defined.

Lemma executeBackup_decision_witness :
  let s := initialState (Demo.unhashable []) in
  executeBackup Demo.job s
  = performBackup Demo.job
      (set_logs (λ l, l ++ [LogHashCheckFailedProceeding "saves"
                              "dirhash: filenames with newlines are not supported"]) s).
Proof.
  intros s.
  apply (proj1 (executeBackup_decision Demo.job s eq_refl)
           "dirhash: filenames with newlines are not supported").
  reflexivity.
Defined.

Lemma second_run_is_skip_witness :
  let s := initialState (Demo.quiet []) in
  let s1 := finalState (executeBackup Demo.job s) in
  executeBackup Demo.job s1 = skipBackup Demo.job s1.
Proof.
  intros s s1.
  apply (second_run_is_skip Demo.job s s1 s1 "h1:abc");
    [reflexivity | reflexivity | vm_compute; reflexivity | reflexivity | reflexivity].
Defined.

(** C8, as the specification words it, does not hold: hash checking is on,
    the first run copies and succeeds, nothing changes, and the second run
    copies again, because the fingerprint of this source cannot be
    computed. *)
Lemma second_run_copies_when_unhashable :
  let s := initialState (Demo.unhashable []) in
  let s1 := finalState (executeBackup Demo.job s) in
  IsHashCheckEnabled Demo.job = true
  ∧ executeBackup Demo.job s = Done None s1
  ∧ executeBackup Demo.job s1
    = performBackup Demo.job
        (set_logs (λ l, l ++ [LogHashCheckFailedProceeding "saves"
                                "dirhash: filenames with newlines are not supported"]) s1)
  ∧ executeBackup Demo.job s1 ≠ skipBackup Demo.job s1.
Proof.
  intros s s1. split; [reflexivity|]. split; [vm_compute; reflexivity|].
  split; [reflexivity|].
  intros Heq. apply (f_equal (λ o, logs (finalState o))) in Heq.
  vm_compute in Heq. discriminate.
Qed.

(** ** Loading the store *)

Section LoadProofs.
Context `{GoRuntime}.

(** C7 (as amended). A missing file is a normal first run: [loadFromFile]
    returns no error and the store stays as it was, empty at start.  A file
    that is present but malformed makes [loadFromFile] return the decoding
    error; [initHashManager] logs it as a warning and returns normally, so
    the start of the process goes on. *)
Theorem hash_file_load (s : State) :
  let path := filePath (hashManager s) in
  (files (world s) !! path = None →
     loadFromFile s = Done None s ∧ initHashManager s = Done tt s)
  ∧ (∀ w, files w !! "hashes.json" = None →
       hashes (hashManager (finalState (initHashManager (initialState w)))) = ∅)
  ∧ (∀ e decoded, files (world s) !! path = Some (FileMalformed e decoded) →
       let s' := set_hashManager
                   (λ hm, mkHashManager (decoded ∪ hashes hm) (filePath hm)) s in
       loadFromFile s = Done (Some e) s'
       ∧ initHashManager s = Done tt (set_logs (λ l, l ++ [LogWarnHashFile e]) s')).
Proof.
  intros path. split; [|split].
  - intros Hnone. unfold initHashManager, loadFromFile. go_simpl. fold path.
    by rewrite Hnone.
  - intros w Hnone. unfold initHashManager, loadFromFile. go_simpl. by rewrite Hnone.
  - intros e decoded Hbad. unfold initHashManager, loadFromFile. go_simpl. fold path.
    by rewrite Hbad.
Qed.

End LoadProofs.

Lemma hash_file_load_witness :
  let s := initialState Demo.truncatedStore in
  ∃ s', loadFromFile s = Done (Some "unexpected end of JSON input") s'
    ∧ initHashManager s
      = Done tt (set_logs (λ l, l ++ [LogWarnHashFile "unexpected end of JSON input"]) s').
Proof.
  intros s. eexists.
  apply (proj2 (proj2 (hash_file_load s)) "unexpected end of JSON input" ∅).
  reflexivity.
Defined.

(** C7, as the specification words it, does not hold: with a malformed
    [hashes.json] the load error is not fatal; [initHashManager] returns
    normally, having logged a warning. *)
Lemma malformed_hash_file_not_fatal :
  let s := initialState Demo.truncatedStore in
  files (world s) !! filePath (hashManager s)
    = Some (FileMalformed "unexpected end of JSON input" ∅)
  ∧ ¬ panics (initHashManager s)
  ∧ logs (finalState (initHashManager s))
    = [LogWarnHashFile "unexpected end of JSON input"].
Proof.
  intros s. split; [reflexivity|]. split; [|reflexivity].
  vm_compute. tauto.
Qed.

(** ** Startup recovery *)

Lemma wrap64_range z : (minDuration ≤ wrap64 z ≤ maxDuration)%Z.
Proof.
  unfold wrap64, minDuration, maxDuration.
  pose proof (Z.mod_pos_bound (z + 2 ^ 63) (2 ^ 64) ltac:(lia)). lia.
Qed.

Lemma wrap64_id z : (minDuration ≤ z ≤ maxDuration)%Z → wrap64 z = z.
Proof.
  unfold wrap64, minDuration, maxDuration. intros Hz.
  rewrite Z.mod_small by lia. lia.
Qed.

(** Up to 153722867 minutes (some 292 years) the interval is exact. *)
Lemma minutes_exact n :
  (0 ≤ n ≤ 153722867)%Z → minutes n = (n * 60000000000)%Z.
Proof.
  intros Hn. unfold minutes, dmul, Minute, Second.
  rewrite (wrap64_id n) by (unfold minDuration, maxDuration; lia).
  apply wrap64_id. unfold minDuration, maxDuration. lia.
Qed.

(** The delay of the first timer, in exact arithmetic. *)
Lemma delay_arith (interval : Duration) (now elt : Time) :
  (0 ≤ interval ≤ maxDuration)%Z →
  (elt - now ≤ maxDuration - interval)%Z →
  (if (interval <=? Sub now elt)%Z then 0%Z else dsub interval (Sub now elt))
  = Z.max 0 (interval - (now - elt)).
Proof.
  intros Hi Hrange. unfold Sub, dsub.
  unfold maxDuration, minDuration in *.
  destruct (Z.ltb_spec (2 ^ 63 - 1) (now - elt)) as [Hhi|Hhi].
  - destruct (Z.leb_spec interval (2 ^ 63 - 1)); lia.
  - destruct (Z.ltb_spec (now - elt) (- 2 ^ 63)) as [Hlo|Hlo]; [lia|].
    destruct (Z.leb_spec interval (now - elt)); [lia|].
    rewrite wrap64_id by (unfold maxDuration, minDuration; lia). lia.
Qed.


Section StartupProofs.
Context `{GoRuntime}.

Lemma findLastBackupTime_eq config s :
  findLastBackupTime config s = Done (latestSnapshot config (world s)) s.
Proof.
  unfold findLastBackupTime, latestSnapshot, osReadDir. go_simpl.
  by destruct (dirs (world s) !! BackupConfig.Destination config) as [[entries|e]|].
Qed.

Lemma initializeSchedule_frame config s :
  ∃ s', initializeSchedule config s = Done tt s'
    ∧ world s' = world s ∧ hashManager s' = hashManager s ∧ logs s' = logs s.
Proof.
  unfold initializeSchedule.
  rewrite (bind_Done timeNow _ s _ s eq_refl).
  rewrite (bind_Done _ _ _ _ _ (findLastBackupTime_eq config s)).
  destruct (IsHashCheckEnabled config).
  - unfold getLastActionType, getLastActionTime. go_simpl.
    destruct (_ && _).
    + rewrite shouldSkipBackup_eq.
      destruct (hashDir (world s) (BackupConfig.Source config)) as [h|e];
        [destruct (hashes (hashManager s) !! BackupConfig.Name config) as [st|];
         [destruct (bool_decide (h = LastHash st))|]|];
        eexists; by repeat split.
    + eexists; by repeat split.
  - go_simpl. eexists; by repeat split.
Qed.

Lemma effectiveLastTime_eq config lastBackupTime s :
  ∃ desc s', effectiveLastTime config lastBackupTime s
             = Done (recoveredTime config lastBackupTime s, desc) s'
    ∧ world s' = world s ∧ hashManager s' = hashManager s.
Proof.
  unfold effectiveLastTime, recoveredTime.
  destruct (IsHashCheckEnabled config); [|by eexists _, _].
  unfold getLastActionType, getLastActionTime. go_simpl.
  destruct (hashes (hashManager s) !! BackupConfig.Name config) as [st|] eqn:Hst;
    simpl; [|by eexists _, _].
  destruct (_ && _); [|by eexists _, _].
  rewrite shouldSkipBackup_eq, Hst.
  destruct (hashDir (world s) (BackupConfig.Source config)) as [h|e];
    [destruct (bool_decide (h = LastHash st))|]; by eexists _, _.
Qed.

Lemma firstBackupDelay_eq config interval elt desc s :
  ∃ s', firstBackupDelay config interval elt desc s
        = Done (if IsZero elt then 0%Z
                else if (interval <=? Sub (clock (world s)) elt)%Z then 0%Z
                else dsub interval (Sub (clock (world s)) elt)) s'.
Proof.
  unfold firstBackupDelay. destruct (IsZero elt); go_simpl; [by eexists|].
  destruct (_ <=? _)%Z; by eexists.
Qed.

Lemma firstBackupDelay_frame config interval elt desc s :
  ∃ s', firstBackupDelay config interval elt desc s
        = Done (if IsZero elt then 0%Z
                else if (interval <=? Sub (clock (world s)) elt)%Z then 0%Z
                else dsub interval (Sub (clock (world s)) elt)) s'
    ∧ world s' = world s ∧ hashManager s' = hashManager s.
Proof.
  unfold firstBackupDelay. destruct (IsZero elt); go_simpl; [by eexists|].
  destruct (_ <=? _)%Z; by eexists.
Qed.


End StartupProofs.



(** ** The latest snapshot time *)

Section SnapshotTimeProofs.
Context `{GoRuntime}.

Lemma findLastBackupTime_step_max sfn acc e :
  (0 ≤ acc)%Z →
  findLastBackupTime_step sfn acc e
  = Z.max acc (foldr Z.max zeroTime (parsedTimes sfn [e])).
Proof.
  intros Hacc. unfold findLastBackupTime_step, parsedTimes, parseBackupTimestamp.
  simpl. unfold qualifies.
  destruct (IsDir e); simpl; [|unfold zeroTime; lia].
  destruct (isBackupDirectory (Name e) sfn); simpl; [|unfold zeroTime; lia].
  destruct (time_ParseInLocation _) as [t|err]; simpl; [|unfold zeroTime; lia].
  unfold IsZero, After, zeroTime.
  destruct (Z.eqb_spec t 0); simpl; [lia|].
  destruct (Z.ltb_spec acc t); lia.
Qed.

Lemma parsedTimes_cons sfn e entries :
  parsedTimes sfn (e :: entries) = parsedTimes sfn [e] ++ parsedTimes sfn entries.
Proof. unfold parsedTimes. simpl. by destruct (if qualifies sfn e then _ else _). Qed.

Lemma foldr_max_app (l1 l2 : list Z) :
  foldr Z.max 0%Z (l1 ++ l2) = Z.max (foldr Z.max 0%Z l1) (foldr Z.max 0%Z l2).
Proof.
  induction l1 as [|x l1 IH]; simpl.
  - assert (0 ≤ foldr Z.max 0 l2)%Z by (induction l2; simpl; lia). lia.
  - rewrite IH. lia.
Qed.

Lemma foldr_max_nonneg (l : list Z) : (0 ≤ foldr Z.max 0 l)%Z.
Proof. induction l; simpl; lia. Qed.

Lemma foldr_max_spec (l : list Z) :
  (∀ t, t ∈ l → (t ≤ foldr Z.max 0 l)%Z)
  ∧ (foldr Z.max 0%Z l ∈ l ∨ foldr Z.max 0%Z l = 0%Z).
Proof.
  induction l as [|x l [IHle IHin]]; simpl.
  - split; [by intros t ?%elem_of_nil | by right].
  - split.
    + intros t [->|Ht]%elem_of_cons; [lia|]. specialize (IHle t Ht). lia.
    + destruct (Z.max_spec x (foldr Z.max 0%Z l)) as [[_ ->]|[_ ->]].
      * destruct IHin as [Hin| ->]; [left; by right | by right].
      * left; by left.
Qed.

Lemma findLastBackupTime_fold sfn entries : ∀ acc,
  (0 ≤ acc)%Z →
  foldl (findLastBackupTime_step sfn) acc entries
  = Z.max acc (foldr Z.max zeroTime (parsedTimes sfn entries)).
Proof.
  induction entries as [|e entries IH]; intros acc Hacc.
  - simpl. unfold zeroTime. lia.
  - rewrite (parsedTimes_cons sfn e entries). cbn [foldl].
    rewrite findLastBackupTime_step_max by exact Hacc.
    rewrite IH by lia. unfold zeroTime.
    rewrite foldr_max_app. lia.
Qed.

Lemma parsedTimes_names sfn (entries entries' : list DirEntry) :
  Forall2 (λ e e', Name e = Name e' ∧ IsDir e = IsDir e') entries entries' →
  parsedTimes sfn entries = parsedTimes sfn entries'.
Proof.
  induction 1 as [|e e' l l' [Hn Hd] _ IH]; [reflexivity|].
  rewrite (parsedTimes_cons sfn e), (parsedTimes_cons sfn e'), IH.
  f_equal. unfold parsedTimes, qualifies. simpl. by rewrite Hn, Hd.
Qed.

Lemma parsedTimes_none sfn (entries : list DirEntry) :
  Forall (λ e, qualifies sfn e = false) entries → parsedTimes sfn entries = [].
Proof.
  induction 1 as [|e l He _ IH]; [reflexivity|].
  rewrite parsedTimes_cons, IH. unfold parsedTimes. simpl. by rewrite He.
Qed.

(** What [findLastBackupTime] computes.  The latest snapshot time that
    scheduling falls back on
    is the greatest of the times parsed from the names of the qualifying
    entries of the destination, times that do not parse or lie at or before
    the zero instant set aside; it is the zero time when there is no
    qualifying entry or the destination cannot be listed.  The entries' own
    modification times play no part: two listings with the same names and
    kinds give the same time. *)
Theorem findLastBackupTime_from_names (config : BackupConfig.t) (s : State) :
  let sfn := getSourceFolderName (BackupConfig.Source config) in
  let dest := BackupConfig.Destination config in
  ∃ latest, findLastBackupTime config s = Done latest s
    ∧ (∀ entries, dirs (world s) !! dest = Some (Ok entries) →
         latest = foldr Z.max zeroTime (parsedTimes sfn entries)
         ∧ (∀ t, t ∈ parsedTimes sfn entries → (t ≤ latest)%Z)
         ∧ (latest ∈ parsedTimes sfn entries ∨ latest = zeroTime)
         ∧ (Forall (λ e, qualifies sfn e = false) entries → latest = zeroTime)
         ∧ (∀ entries',
              Forall2 (λ e e', Name e = Name e' ∧ IsDir e = IsDir e') entries entries' →
              latest = foldr Z.max zeroTime (parsedTimes sfn entries')))
    ∧ ((∀ entries, dirs (world s) !! dest ≠ Some (Ok entries)) → latest = zeroTime).
Proof.
  intros sfn dest. exists (latestSnapshot config (world s)).
  split; [apply findLastBackupTime_eq|]. unfold latestSnapshot. fold sfn dest.
  split.
  - intros entries ->.
    rewrite findLastBackupTime_fold by (unfold zeroTime; lia).
    pose proof (foldr_max_nonneg (parsedTimes sfn entries)) as Hnn.
    unfold zeroTime in *. rewrite Z.max_r by exact Hnn.
    destruct (foldr_max_spec (parsedTimes sfn entries)) as [Hle Hin].
    split; [reflexivity|]. split; [exact Hle|]. split; [exact Hin|]. split.
    + intros Hnone.
      by rewrite (parsedTimes_none sfn entries Hnone).
    + intros entries' Hsame. by rewrite (parsedTimes_names sfn entries entries' Hsame).
  - intros Hno. destruct (dirs (world s) !! dest) as [[entries|e]|]; try reflexivity.
    by destruct (Hno entries).
Qed.

End SnapshotTimeProofs.

Lemma findLastBackupTime_from_names_witness :
  let entries := [Demo.snapshot "09-08-2025_14-30-15_data" (Ok Demo.now) None;
                  Demo.snapshot "10-08-2025_08-00-00_data" (Ok Demo.now) None;
                  Demo.snapshot "notes" (Ok Demo.now) None] in
  let s := initialState (Demo.quiet entries) in
  findLastBackupTime Demo.job s = Done (Civil.Date 2025 8 10 8 0 0 0) s.
Proof.
  intros entries s.
  destruct (findLastBackupTime_from_names Demo.job s) as (latest & Hrun & Hlisted & _).
  destruct (Hlisted entries eq_refl) as (Hlatest & _).
  rewrite Hrun, Hlatest. vm_compute. reflexivity.
Defined.

(** C3. The code departs from the claim, and from the comments of the
    scheduler, which call the fallback the folder modification time: for a
    snapshot directory named for 2 January 2006 and last modified on 10
    August 2025, [findLastBackupTime] returns the time in the name, which is
    not the greatest modification time of the qualifying directories. *)
Lemma latest_snapshot_time_is_not_mod_time :
  let entries := [Demo.snapshot "02-01-2006_15-04-05_data" (Ok Demo.now) None] in
  let s := initialState (Demo.quiet entries) in
  modTimes "data" entries = [Demo.now]
  ∧ findLastBackupTime Demo.job s = Done (Civil.Date 2006 1 2 15 4 5 0) s
  ∧ Civil.Date 2006 1 2 15 4 5 0 ≠ foldr Z.max zeroTime (modTimes "data" entries).
Proof.
  intros entries s. split; [vm_compute; reflexivity|].
  split; [vm_compute; reflexivity|]. vm_compute. discriminate.
Qed.

(** ** Retention *)

Lemma filter_all {A} (P : A → Prop) `{∀ x, Decision (P x)} (l : list A) :
  Forall P l → filter P l = l.
Proof.
  induction 1 as [|x l Hx _ IH]; [reflexivity|].
  rewrite filter_cons. destruct (decide (P x)); [by rewrite IH | done].
Qed.

Lemma filter_none {A} (P : A → Prop) `{∀ x, Decision (P x)} (l : list A) :
  Forall (λ x, ¬ P x) l → filter P l = [].
Proof.
  induction 1 as [|x l Hx _ IH]; [reflexivity|].
  rewrite filter_cons. destruct (decide (P x)); [done | exact IH].
Qed.

(** Filtering out the images of a prefix leaves the rest, when no image
    occurs twice. *)
Lemma filter_notin_app {A B} `{EqDecision B} (f : A → B) (l1 l2 : list A) :
  NoDup (f <$> (l1 ++ l2)) →
  filter (λ x, f x ∉ f <$> l1) (l1 ++ l2) = l2.
Proof.
  rewrite fmap_app. intros (_ & Hdisj & _)%NoDup_app.
  rewrite filter_app, filter_none, filter_all; [reflexivity | |].
  - apply Forall_forall. intros x Hx Hin. apply (Hdisj (f x) Hin).
    apply list_elem_of_fmap. by eauto.
  - apply Forall_forall. intros x Hx Hn. apply Hn.
    apply list_elem_of_fmap. by eauto.
Qed.

Lemma StronglySorted_weaken {A} (R R' : relation A) (l : list A) :
  (∀ a b, R a b → R' a b) → StronglySorted R l → StronglySorted R' l.
Proof.
  intros HR. induction 1 as [|x l _ IH Hx]; constructor; [exact IH|].
  eapply Forall_impl; [exact Hx | apply HR].
Qed.

Lemma statEntries_cons e l :
  statEntries (e :: l)
  = match Info e with
    | Ok t => mkDirInfo e t :: statEntries l
    | Err _ => statEntries l
    end.
Proof. unfold statEntries. simpl. by destruct (Info e). Qed.

Lemma statEntries_entry (l : list DirEntry) :
  Forall (λ e, is_Some (ModTime e)) l → entry <$> statEntries l = l.
Proof.
  induction 1 as [|e l [t Ht] _ IH]; [reflexivity|].
  rewrite statEntries_cons. unfold ModTime in Ht.
  destruct (Info e); [|discriminate]. rewrite fmap_cons, IH. reflexivity.
Qed.

Lemma statEntries_info (l : list DirEntry) (d : dirInfo) :
  d ∈ statEntries l → ModTime (entry d) = Some (modTime d).
Proof.
  induction l as [|e l IH]; [by intros ?%elem_of_nil|].
  rewrite statEntries_cons. destruct (Info e) as [t|err] eqn:Hinfo; [|exact IH].
  intros [->|Hd]%elem_of_cons; [|by apply IH].
  unfold ModTime. simpl. by rewrite Hinfo.
Qed.

Lemma deletions_spec (victims deleted : list dirInfo) (err : option error) :
  deletions victims = (deleted, err) →
  ∃ rest, victims = deleted ++ rest
    ∧ Forall (λ d, RemoveAll (entry d) = None) deleted
    ∧ match err with
      | None => rest = []
      | Some e => ∃ d rest', rest = d :: rest' ∧ RemoveAll (entry d) = Some e
      end.
Proof.
  revert deleted err. induction victims as [|d victims IH]; intros deleted err; simpl.
  - intros [= <- <-]. by exists [].
  - destruct (RemoveAll (entry d)) as [e|] eqn:Hrm.
    + intros [= <- <-]. exists (d :: victims). by eauto 6.
    + destruct (deletions victims) as [deleted' err'].
      intros [= <- <-].
      destruct (IH deleted' err' eq_refl) as (rest & -> & Hall & Herr).
      exists rest. split; [reflexivity|]. split; [by constructor | exact Herr].
Qed.

Lemma without_nil (entries : list DirEntry) : without [] entries = entries.
Proof.
  unfold without. apply filter_all, Forall_forall. intros e _. apply not_elem_of_nil.
Qed.

Lemma without_cons d deleted (entries : list DirEntry) :
  without deleted (filter (λ e', Name e' ≠ Name (entry d)) entries)
  = without (d :: deleted) entries.
Proof.
  unfold without. rewrite list_filter_filter. apply list_filter_iff.
  intros e. simpl. rewrite not_elem_of_cons. tauto.
Qed.

Lemma without_commutes P `{∀ e : DirEntry, Decision (P e)} deleted entries :
  filter P (without deleted entries) = without deleted (filter P entries).
Proof.
  unfold without. rewrite !list_filter_filter. apply list_filter_iff. tauto.
Qed.

Section RetentionProofs.
Context `{GoRuntime}.

(** The deleting loop, run over an index range that lies in the slice. *)
Lemma deleteOldest_run dest (l : list dirInfo) : ∀ n i s entries,
  dirs (world s) !! dest = Some (Ok entries) →
  i + n ≤ length l →
  ∃ s', deleteOldest dest l i n s = Done (deletions (take n (drop i l))).2 s'
    ∧ dirs (world s') !! dest
      = Some (Ok (without (deletions (take n (drop i l))).1 entries))
    ∧ ((deletions (take n (drop i l))).1 = [] → s' = s).
Proof.
  induction n as [|n IH]; intros i s entries Hdir Hlen.
  - rewrite take_0. simpl. exists s. by rewrite without_nil.
  - destruct (lookup_lt_is_Some_2 l i ltac:(lia)) as [d Hd].
    rewrite (drop_S l d i Hd). rewrite firstn_cons. cbn [deleteOldest deletions].
    rewrite Hd. unfold osRemoveAll.
    destruct (RemoveAll (entry d)) as [e|] eqn:Hrm.
    + go_simpl. exists s. by rewrite without_nil.
    + go_simpl.
      match goal with |- context [deleteOldest dest l (S i) n ?s1] =>
        destruct (IH (S i) s1 (filter (λ e', Name e' ≠ Name (entry d)) entries))
          as (s' & Hrun & Hdir' & _);
          [simpl; rewrite Hdir; apply lookup_insert_eq | lia |]
      end.
      destruct (deletions (take n (drop (S i) l))) as [deleted err].
      simpl in *. exists s'. rewrite Hrun, Hdir', without_cons. by repeat split.
Qed.

(** C2 (as amended). Let a destination list [N] qualifying snapshots whose
    modification times can all be read, and let the retention count [R] be
    non-negative.  If [N ≤ R] the retention step deletes nothing.  If
    [N > R] it takes the [N − R] snapshots with the oldest modification
    times and deletes them one at a time, oldest first, stopping at the
    first deletion that fails and returning its error; on success exactly
    [R] snapshots remain, and the modification time of every one of them is
    at least that of every deleted one. *)
Theorem cleanupOldBackups_retention
    (config : BackupConfig.t) (s : State) (entries : list DirEntry) :
  let dest := BackupConfig.Destination config in
  let sfn := getSourceFolderName (BackupConfig.Source config) in
  let R := BackupConfig.RotationCount config in
  let snapshots := filter (λ e, qualifies sfn e) entries in
  let N := length snapshots in
  sort_Slice_ok olderThan →
  dirs (world s) !! dest = Some (Ok entries) →
  wfListing entries →
  Forall (λ e, is_Some (ModTime e)) snapshots →
  (0 ≤ R)%Z →
  ((Z.of_nat N ≤ R)%Z → cleanupOldBackups config s = Done None s)
  ∧ ((R < Z.of_nat N)%Z →
     ∃ victims kept deleted rest err s',
       entry <$> (victims ++ kept) ≡ₚ snapshots
       ∧ Z.of_nat (length victims) = (Z.of_nat N - R)%Z
       ∧ Z.of_nat (length kept) = R
       ∧ StronglySorted (λ a b, (modTime a ≤ modTime b)%Z) (victims ++ kept)
       ∧ (∀ d, d ∈ victims ++ kept → ModTime (entry d) = Some (modTime d))
       ∧ victims = deleted ++ rest
       ∧ Forall (λ d, RemoveAll (entry d) = None) deleted
       ∧ match err with
         | None => rest = []
         | Some e => ∃ d rest', rest = d :: rest' ∧ RemoveAll (entry d) = Some e
         end
       ∧ cleanupOldBackups config s = Done err s'
       ∧ sameButDirs s s'
       ∧ dirs (world s') !! dest = Some (Ok (without deleted entries))
       ∧ filter (λ e, qualifies sfn e) (without deleted entries)
         ≡ₚ entry <$> (rest ++ kept)
       ∧ (err = None →
            length (filter (λ e, qualifies sfn e) (without deleted entries))
            = Z.to_nat R
            ∧ ∀ k d tk,
                k ∈ filter (λ e, qualifies sfn e) (without deleted entries) →
                d ∈ deleted → ModTime k = Some tk → (modTime d ≤ tk)%Z)).
Proof.
  intros dest sfn R snapshots N Hsort Hdir [Hnodup Hlen] Hstat HR.
  assert (HN : (Z.of_nat N ≤ 2 ^ 63 - 1)%Z).
  { pose proof (length_filter (λ e, qualifies sfn e) entries). unfold N, snapshots. lia. }
  split.
  - intros HNR. unfold cleanupOldBackups, osReadDir. go_simpl. fold dest. rewrite Hdir.
    fold sfn snapshots N R. by destruct (Z.leb_spec (Z.of_nat N) R); [|lia].
  - intros HNR.
    destruct (Hsort (statEntries snapshots)) as [Hperm Hsorted].
    set (sorted := sort_Slice olderThan (statEntries snapshots)) in *.
    assert (HlenS : length sorted = N).
    { rewrite (Permutation_length Hperm).
      rewrite <- (length_fmap entry), (statEntries_entry snapshots Hstat). reflexivity. }
    assert (Hwrap : wrap64 (Z.of_nat (length sorted) - R) = (Z.of_nat N - R)%Z).
    { rewrite HlenS. apply wrap64_id. unfold minDuration, maxDuration. lia. }
    set (k := Z.to_nat (Z.of_nat N - R)).
    set (victims := take k sorted). set (kept := drop k sorted).
    assert (Hsplit : victims ++ kept = sorted) by apply take_drop.
    destruct (deleteOldest_run dest sorted k 0 s entries Hdir ltac:(lia))
      as (s' & Hrun & Hdir' & _).
    rewrite drop_0 in Hrun, Hdir'. fold victims in Hrun, Hdir'.
    destruct (deletions victims) as [deleted err] eqn:Hdel. simpl in Hrun, Hdir'.
    destruct (deletions_spec _ _ _ Hdel) as (rest & Hv & Hrm & Herr).
    assert (Hrunc : cleanupOldBackups config s = Done err s').
    { unfold cleanupOldBackups, osReadDir. go_simpl. fold dest. rewrite Hdir.
      fold sfn snapshots N R. destruct (Z.leb_spec (Z.of_nat N) R); [lia|].
      fold sorted. rewrite Hwrap. exact Hrun. }
    assert (HpermE : entry <$> (victims ++ kept) ≡ₚ snapshots).
    { rewrite Hsplit, Hperm. by rewrite (statEntries_entry snapshots Hstat). }
    assert (HlenV : length victims = k).
    { unfold victims. rewrite length_take. lia. }
    assert (HlenK : Z.of_nat (length kept) = R).
    { unfold kept. rewrite length_drop. lia. }
    assert (HsortedZ : StronglySorted (λ a b, (modTime a ≤ modTime b)%Z) (victims ++ kept)).
    { rewrite Hsplit. eapply StronglySorted_weaken; [|exact Hsorted].
      intros a b. unfold olderThan, Before. intros ?%Z.ltb_ge. lia. }
    assert (Hinfo : ∀ d, d ∈ victims ++ kept → ModTime (entry d) = Some (modTime d)).
    { intros d. rewrite Hsplit, Hperm. apply statEntries_info. }
    assert (Hremaining : filter (λ e, qualifies sfn e) (without deleted entries)
                         ≡ₚ entry <$> (rest ++ kept)).
    { rewrite without_commutes. fold snapshots. unfold without.
      etransitivity; [apply filter_Permutation; symmetry; exact HpermE|].
      rewrite Hv, <- app_assoc, fmap_app, list_fmap_compose.
      rewrite filter_notin_app; [reflexivity|].
      rewrite <- fmap_app, app_assoc, <- Hv, HpermE.
      eapply sublist_NoDup; [exact Hnodup|].
      apply fmap_sublist, sublist_filter. }
    exists victims, kept, deleted, rest, err, s'.
    split; [exact HpermE|]. split; [lia|]. split; [exact HlenK|].
    split; [exact HsortedZ|]. split; [exact Hinfo|]. split; [exact Hv|].
    split; [exact Hrm|]. split; [exact Herr|]. split; [exact Hrunc|].
    split.
    { pose proof (cleanupOldBackups_frame config s) as Hframe.
      by rewrite Hrunc in Hframe. }
    split; [exact Hdir'|]. split; [exact Hremaining|].
    intros ->. subst rest. rewrite app_nil_r in Hv. subst deleted.
    rewrite app_nil_l in Hremaining. split.
    + rewrite (Permutation_length Hremaining), length_fmap. lia.
    + intros e d tk He Hd Htk.
      rewrite Hremaining in He. apply list_elem_of_fmap in He as (d' & -> & Hd').
      rewrite (Hinfo d') in Htk by (apply elem_of_app; by right).
      injection Htk as <-.
      exact (StronglySorted_app_1_elem_of _ _ _ _ _ HsortedZ Hd Hd').
Qed.

End RetentionProofs.

(** ** The instance: merge sort meets the contract of [sort.Slice] *)

Lemma unix_sort_Slice_ok : sort_Slice_ok (H := unixRuntime) olderThan.
Proof.
  assert (Htrans : Transitive (mayFollow olderThan)).
  { intros a b c. unfold mayFollow, olderThan, Before.
    intros ?%Z.ltb_ge ?%Z.ltb_ge. apply Z.ltb_ge. lia. }
  assert (Htotal : Total (mayFollow olderThan)).
  { intros a b. unfold mayFollow, olderThan, Before.
    destruct (Z.ltb_spec (modTime b) (modTime a)); [right | left; reflexivity].
    apply Z.ltb_ge. lia. }
  intros l. split.
  - apply merge_sort_Permutation.
  - apply (StronglySorted_merge_sort (mayFollow olderThan)).
Qed.

Lemma cleanupOldBackups_retention_witness :
  let entries :=
    [Demo.snapshot "10-08-2025_08-00-00_data" (Ok (Civil.Date 2025 8 10 8 0 0 0)) None;
     Demo.snapshot "08-08-2025_08-00-00_data" (Ok (Civil.Date 2025 8 8 8 0 0 0)) None;
     Demo.snapshot "notes" (Ok (Civil.Date 2025 8 1 0 0 0 0)) None;
     Demo.snapshot "09-08-2025_08-00-00_data" (Ok (Civil.Date 2025 8 9 8 0 0 0)) None] in
  let s := initialState (Demo.quiet entries) in
  ∃ s', cleanupOldBackups Demo.job s = Done None s'
    ∧ Name <$> listing "/backups" s'
      = ["10-08-2025_08-00-00_data"; "notes"; "09-08-2025_08-00-00_data"].
Proof.
  intros entries s.
  assert (Hwf : wfListing entries).
  { split; [apply (bool_decide_unpack _); vm_compute; exact I | vm_compute; discriminate]. }
  assert (Hstat : Forall (λ e, is_Some (ModTime e))
                    (filter (λ e, qualifies "data" e) entries)).
  { apply (bool_decide_unpack _). vm_compute. exact I. }
  destruct (cleanupOldBackups_retention Demo.job s entries unix_sort_Slice_ok
              eq_refl Hwf Hstat ltac:(vm_compute; discriminate)) as [_ Hmore].
  destruct (Hmore ltac:(vm_compute; reflexivity))
    as (victims & kept & deleted & rest & err & s' & _ & _ & _ & _ & _ & _ & _ & _
        & Hrun & _).
  exists s'. vm_compute in Hrun. injection Hrun as <- <-.
  split; vm_compute; reflexivity.
Defined.

(** C2, as the specification words it, does not hold: three qualifying
    snapshots, a retention count of two, and none of the snapshots can be
    stat'ed (the loop skips them); the retention step succeeds and deletes
    nothing. *)
Lemma cleanup_keeps_snapshots_it_cannot_stat :
  let entries :=
    [Demo.snapshot "08-08-2025_08-00-00_data" (Err "permission denied") None;
     Demo.snapshot "09-08-2025_08-00-00_data" (Err "permission denied") None;
     Demo.snapshot "10-08-2025_08-00-00_data" (Err "permission denied") None] in
  let s := initialState (Demo.quiet entries) in
  length (filter (λ e, qualifies "data" e) entries) = 3
  ∧ BackupConfig.RotationCount Demo.job = 2%Z
  ∧ cleanupOldBackups Demo.job s = Done None s.
Proof.
  intros entries s. split; [vm_compute; reflexivity|].
  split; [reflexivity|]. vm_compute. reflexivity.
Qed.

(** ** Snapshot names *)

(** C4. The names generated for two instants need not compare as the
    instants do: 31 January 2025 precedes 1 February 2025, yet the name
    generated for the first sorts after the name generated for the second,
    the day of the month being the leading field of the layout. *)
Theorem snapshot_names_not_chronological :
  let t1 := Civil.Date 2025 1 31 0 0 0 0 in
  let t2 := Civil.Date 2025 2 1 0 0 0 0 in
  (t1 < t2)%Z
  ∧ generateBackupDirName "/srv/games/data" t1 = "31-01-2025_00-00-00_data"
  ∧ generateBackupDirName "/srv/games/data" t2 = "01-02-2025_00-00-00_data"
  ∧ String.compare (generateBackupDirName "/srv/games/data" t1)
                   (generateBackupDirName "/srv/games/data" t2) = Gt.
Proof. repeat split; vm_compute; reflexivity. Qed.

(** * Further properties of the engine *)

(** ** Snapshot names: generating and recognising *)

Lemma string_app_assoc_r (a b c : string) : a +:+ (b +:+ c) = (a +:+ b) +:+ c.
Proof.
  induction a as [|x a IH]; [reflexivity|].
  rewrite !string_app_cons. by rewrite IH.
Qed.

Section NameProofs.
Context `{GoRuntime}.

Lemma generateBackupDirName_recognised (sourcePath : string) (timestamp : Time) :
  (19 ≤ String.length (time_Format timestamp))%nat →
  isBackupDirectory (generateBackupDirName sourcePath timestamp)
    (getSourceFolderName sourcePath) = true
  ∧ timestampPart (generateBackupDirName sourcePath timestamp)
      (getSourceFolderName sourcePath) = time_Format timestamp.
Proof.
  intros Hlen.
  set (sfn := getSourceFolderName sourcePath).
  set (name := generateBackupDirName sourcePath timestamp).
  assert (Hname : name = time_Format timestamp +:+ ("_" +:+ sfn)) by reflexivity.
  assert (Hl : String.length name
               = (String.length (time_Format timestamp) + 1 + String.length sfn)%nat).
  { rewrite Hname, !string_app_length. simpl. lia. }
  split.
  - apply isBackupDirectory_spec. split; [lia|].
    exists (time_Format timestamp +:+ "_"). rewrite Hname.
    apply string_app_assoc_r.
  - unfold timestampPart. rewrite Hl.
    replace (String.length (time_Format timestamp) + 1 + String.length sfn
             - String.length sfn - 1)%nat
      with (String.length (time_Format timestamp)) by lia.
    rewrite Hname. apply string_take_app.
Qed.

(** X1. The name generated for a snapshot is recognised as a backup
    directory of the same source, and the part of it handed to the parser is
    exactly the formatted timestamp, provided the formatted timestamp has
    the 19 bytes of the layout or more; so parsing the name is parsing the
    formatted timestamp. *)
Theorem generated_name_is_recognised (sourcePath : string) (timestamp : Time) :
  (String.length BackupTimestampFormat ≤ String.length (time_Format timestamp))%nat →
  let sfn := getSourceFolderName sourcePath in
  let name := generateBackupDirName sourcePath timestamp in
  isBackupDirectory name sfn = true
  ∧ timestampPart name sfn = time_Format timestamp
  ∧ parseBackupTimestamp name sfn = time_ParseInLocation (time_Format timestamp).
Proof.
  change (String.length BackupTimestampFormat) with 19%nat.
  intros Hlen sfn name.
  destruct (generateBackupDirName_recognised sourcePath timestamp Hlen) as [Hrec Hpart].
  split; [exact Hrec|]. split; [exact Hpart|].
  unfold parseBackupTimestamp. subst name sfn. by rewrite Hrec, Hpart.
Qed.

End NameProofs.

Lemma generated_name_is_recognised_witness :
  parseBackupTimestamp (generateBackupDirName "/srv/games/data" Demo.now) "data"
  = Ok Demo.now.
Proof.
  destruct (generated_name_is_recognised "/srv/games/data" Demo.now
              ltac:(apply Nat.leb_le; vm_compute; reflexivity)) as (_ & _ & Hparse).
  change (getSourceFolderName "/srv/games/data") with "data" in Hparse.
  rewrite Hparse. vm_compute. reflexivity.
Defined.

(** ** The latest snapshot time does not depend on the order of the listing *)

Section OrderProofs.
Context `{GoRuntime}.

Lemma foldr_max_Permutation (l1 l2 : list Z) :
  l1 ≡ₚ l2 → foldr Z.max 0%Z l1 = foldr Z.max 0%Z l2.
Proof.
  intros Hperm.
  destruct (foldr_max_spec l1) as [Hle1 Hin1], (foldr_max_spec l2) as [Hle2 Hin2].
  pose proof (foldr_max_nonneg l1). pose proof (foldr_max_nonneg l2).
  apply Z.le_antisymm.
  - destruct Hin1 as [Hin1| ->]; [|assumption]. apply Hle2. by rewrite <- Hperm.
  - destruct Hin2 as [Hin2| ->]; [|assumption]. apply Hle1. by rewrite Hperm.
Qed.

(** X2. [findLastBackupTime] gives the same time for two listings of the
    destination that hold the same entries in a different order. *)
Theorem findLastBackupTime_order_independent
    (config : BackupConfig.t) (s s' : State) (entries entries' : list DirEntry) :
  dirs (world s) !! BackupConfig.Destination config = Some (Ok entries) →
  dirs (world s') !! BackupConfig.Destination config = Some (Ok entries') →
  entries ≡ₚ entries' →
  ∃ latest, findLastBackupTime config s = Done latest s
    ∧ findLastBackupTime config s' = Done latest s'.
Proof.
  intros Hd Hd' Hperm. rewrite !findLastBackupTime_eq. unfold latestSnapshot.
  rewrite Hd, Hd'.
  rewrite !findLastBackupTime_fold by (unfold zeroTime; lia).
  eexists. split; [reflexivity|]. do 2 f_equal.
  apply foldr_max_Permutation. unfold parsedTimes.
  by apply omap_Permutation.
Qed.

End OrderProofs.

Lemma findLastBackupTime_order_independent_witness :
  let a := Demo.snapshot "09-08-2025_14-30-15_data" (Ok Demo.now) None in
  let b := Demo.snapshot "10-08-2025_08-00-00_data" (Ok Demo.now) None in
  ∃ latest,
    findLastBackupTime Demo.job (initialState (Demo.quiet [a; b]))
      = Done latest (initialState (Demo.quiet [a; b]))
    ∧ findLastBackupTime Demo.job (initialState (Demo.quiet [b; a]))
      = Done latest (initialState (Demo.quiet [b; a])).
Proof.
  intros a b.
  apply (findLastBackupTime_order_independent Demo.job _ _ [a; b] [b; a]);
    [reflexivity | reflexivity | apply Permutation_swap].
Defined.

(** ** What the retention step leaves alone *)

Lemma statEntries_elem (l : list DirEntry) (d : dirInfo) :
  d ∈ statEntries l → entry d ∈ l.
Proof.
  induction l as [|e l IH]; [by intros ?%elem_of_nil|].
  rewrite statEntries_cons. destruct (Info e) as [t|err].
  - intros [->|Hd]%elem_of_cons; [by left | right; by apply IH].
  - intros Hd. right. by apply IH.
Qed.

Lemma statEntries_length (l : list DirEntry) : length (statEntries l) ≤ length l.
Proof.
  induction l as [|e l IH]; [reflexivity|].
  rewrite statEntries_cons. destruct (Info e); simpl; lia.
Qed.


Lemma listing_eq dir s entries :
  dirs (world s) !! dir = Some (Ok entries) → listing dir s = entries.
Proof. unfold listing. by intros ->. Qed.

Section SparingProofs.
Context `{GoRuntime}.



(** The deleting loop asked for more iterations than the slice has entries
    cannot end well: a deletion fails, or an index runs off the slice. *)
Lemma deleteOldest_overrun dest (l : list dirInfo) : ∀ n i s,
  i ≤ length l → length l < i + n →
  match deleteOldest dest l i n s with
  | Done None _ => False
  | Done (Some e) _ => ∃ d, d ∈ l ∧ RemoveAll (entry d) = Some e
  | Panic _ _ => True
  end.
Proof.
  induction n as [|n IH]; intros i s Hi Hn; [lia|].
  cbn [deleteOldest]. destruct (l !! i) as [d|] eqn:Hd; [|exact I].
  unfold osRemoveAll. destruct (RemoveAll (entry d)) as [e|] eqn:Hrm.
  - go_simpl. exists d. split; [|exact Hrm]. apply list_elem_of_lookup. by eauto.
  - go_simpl. apply IH; [|lia]. apply lookup_lt_Some in Hd. lia.
Qed.

(** X4. With a negative rotation count [R], and a listing short enough for
    [len(entries) - R] not to exceed the greatest [int] (so that the number
    of deletions does not wrap around), the retention step never returns
    [nil]: the number of deletions it computes exceeds the number of
    snapshots, so it ends with the error of a deletion that failed or, when
    every deletion succeeds, with an index-out-of-range panic. *)
Theorem cleanupOldBackups_negative_rotation
    (config : BackupConfig.t) (s : State) (entries : list DirEntry) :
  sort_Slice_ok olderThan →
  dirs (world s) !! BackupConfig.Destination config = Some (Ok entries) →
  (BackupConfig.RotationCount config < 0)%Z →
  (Z.of_nat (length entries) - BackupConfig.RotationCount config ≤ 2 ^ 63 - 1)%Z →
  (∀ s', cleanupOldBackups config s ≠ Done None s')
  ∧ (Forall (λ e, RemoveAll e = None) entries → panics (cleanupOldBackups config s)).
Proof.
  intros Hsort Hdir HR Hbound.
  set (sfn := getSourceFolderName (BackupConfig.Source config)).
  set (snapshots := filter (λ e, qualifies sfn e) entries).
  destruct (Hsort (statEntries snapshots)) as [Hperm _].
  set (sorted := sort_Slice olderThan (statEntries snapshots)) in *.
  assert (Hlen : length sorted ≤ length entries).
  { rewrite (Permutation_length Hperm).
    etransitivity; [apply statEntries_length|]. apply length_filter. }
  assert (Hrun : cleanupOldBackups config s
                 = deleteOldest (BackupConfig.Destination config) sorted 0
                     (Z.to_nat (Z.of_nat (length sorted)
                                - BackupConfig.RotationCount config)) s).
  { unfold cleanupOldBackups, osReadDir. go_simpl. rewrite Hdir.
    fold sfn snapshots sorted.
    destruct (Z.leb_spec (Z.of_nat (length snapshots))
                (BackupConfig.RotationCount config)); [lia|].
    rewrite wrap64_id by (unfold minDuration, maxDuration; lia). reflexivity. }
  pose proof (deleteOldest_overrun (BackupConfig.Destination config) sorted
                (Z.to_nat (Z.of_nat (length sorted)
                           - BackupConfig.RotationCount config)) 0 s
                ltac:(lia) ltac:(lia)) as Hover.
  rewrite <- Hrun in Hover. split.
  - intros s' Heq. by rewrite Heq in Hover.
  - intros Hall. destruct (cleanupOldBackups config s) as [[e|] s'|msg s'];
      [|contradiction|exact I].
    destruct Hover as (d & Hd & Hrm).
    assert (Hst : d ∈ statEntries snapshots) by (by rewrite <- Hperm).
    pose proof (statEntries_elem _ _ Hst) as [_ Hin]%list_elem_of_filter.
    rewrite Forall_forall in Hall. rewrite (Hall _ Hin) in Hrm. discriminate.
Qed.

Lemma osMkdirAll_keeps dir name s r s1 :
  osMkdirAll dir name s = Done r s1 →
  ∀ e, e ∈ listing dir s → e ∈ listing dir s1.
Proof.
  unfold osMkdirAll. go_simpl.
  destruct (mkdirAll (world s) dir name); [by intros [= _ <-]|].
  intros [= _ <-] e. unfold listing. simpl.
  destruct (dirs (world s) !! dir) as [[entries|err]|] eqn:Hd.
  - destruct (bool_decide _); [by rewrite Hd|].
    rewrite lookup_insert_eq. intros He. apply elem_of_app. by left.
  - by rewrite Hd.
  - by intros ?%elem_of_nil.
Qed.

(** X5. A tick that fails at creating the snapshot directory or at copying
    the tree has deleted nothing: every entry listed in the destination
    before is still listed afterwards. *)
Theorem performBackup_early_failure_keeps_snapshots
    (config : BackupConfig.t) (s : State) :
  let dest := BackupConfig.Destination config in
  let name := generateBackupDirName (BackupConfig.Source config) (clock (world s)) in
  (∃ e, mkdirAll (world s) dest name = Some e)
  ∨ (∃ s1 e, osMkdirAll dest name s = Done None s1
       ∧ copyTree (world s1) (BackupConfig.Source config) dest name = Some e) →
  ∀ x, x ∈ listing dest s → x ∈ listing dest (finalState (performBackup config s)).
Proof.
  intros dest name [[e He]|(s1 & e & Hmk & Hcp)] x Hx.
  - by rewrite (performBackup_mkdir_fails config s e He).
  - rewrite (performBackup_copy_fails config s s1 e Hmk Hcp). simpl.
    by apply (osMkdirAll_keeps dest name s None s1 Hmk).
Qed.

End SparingProofs.


Lemma cleanupOldBackups_negative_rotation_witness :
  let job := BackupConfig.mk "saves" "/srv/games/data" "/backups" 30 (-1) None None None in
  let entries :=
    [Demo.snapshot "10-08-2025_08-00-00_data" (Ok (Civil.Date 2025 8 10 8 0 0 0)) None] in
  panics (cleanupOldBackups job (initialState (Demo.quiet entries))).
Proof.
  intros job entries.
  apply (cleanupOldBackups_negative_rotation job (initialState (Demo.quiet entries))
           entries unix_sort_Slice_ok eq_refl).
  - vm_compute. reflexivity.
  - vm_compute. discriminate.
  - apply (bool_decide_unpack _). vm_compute. exact I.
Defined.

Lemma performBackup_early_failure_keeps_snapshots_witness :
  let old := Demo.snapshot "09-08-2025_08-00-00_data" (Ok (Civil.Date 2025 8 9 8 0 0 0)) None in
  let s := initialState (Demo.uncopyable [old]) in
  old ∈ listing "/backups" (finalState (performBackup Demo.job s)).
Proof.
  intros old s.
  apply (performBackup_early_failure_keeps_snapshots Demo.job s).
  - right.
    exists (finalState (osMkdirAll "/backups"
                          (generateBackupDirName "/srv/games/data" Demo.now) s)),
           "permission denied".
    split; vm_compute; reflexivity.
  - vm_compute. apply elem_of_cons. by left.
Defined.

(** ** Recording an action *)

Ltac go_unfold_in H :=
  unfold mbind, mret, Go_bind, Go_ret, get, gets, modify, panic, timeNow, logPrintf in H.

Section StoreProofs.
Context `{GoRuntime}.

Lemma saveToFile_persist s :
  ∃ r s', saveToFile s = Done r s'
    ∧ hashManager s' = hashManager s
    ∧ backupStatus s' = backupStatus s
    ∧ logs s' = logs s
    ∧ clock (world s') = clock (world s)
    ∧ dirs (world s') = dirs (world s)
    ∧ hashDir (world s') = hashDir (world s)
    ∧ (r = None →
       files (world s') !! filePath (hashManager s)
       = Some (FileHolds (hashes (hashManager s))))
    ∧ (∀ p, p ≠ filePath (hashManager s) →
       files (world s') !! p = files (world s) !! p).
Proof.
  unfold saveToFile. go_simpl.
  destruct (json_MarshalIndent _); [eexists _, _; by repeat split|].
  destruct (writeFile _ _) as [[e [remains|]]|]; eexists _, _; simpl;
    repeat split; try done.
  - intros p Hp. by apply lookup_insert_ne.
  - intros p Hp. by apply lookup_delete_ne.
  - intros _. apply lookup_insert_eq.
  - intros p Hp. by apply lookup_insert_ne.
Qed.

(** X6. Whenever [recordAction] returns after computing the fingerprint (it
    may not: Go panics at the assignment when the map is [nil], as it is
    after a hash file holding [null]), the entry of the job is in the
    in-memory store, whether the result is [nil] or an error of persisting;
    the result is the one [saveToFile] gives for the store with that entry;
    the entries of all other jobs are as they were; when the result is
    [nil] the durable file holds the whole in-memory store; and no other
    file is written. *)
Theorem recordAction_store (configName sourcePath actionType : string)
    (s s' : State) (h : string) (r : option error) :
  let entry := mkHashStatus h actionType (clock (world s)) in
  let recorded :=
    set_hashManager (λ hm, mkHashManager (<[configName := entry]> (hashes hm))
                                         (filePath hm)) s in
  hashDir (world s) sourcePath = Ok h →
  recordAction configName sourcePath actionType s = Done r s' →
  saveToFile recorded = Done r s'
  ∧ hashes (hashManager s') !! configName = Some entry
  ∧ (∀ other, other ≠ configName →
       hashes (hashManager s') !! other = hashes (hashManager s) !! other)
  ∧ (r = None →
       files (world s') !! filePath (hashManager s)
       = Some (FileHolds (hashes (hashManager s'))))
  ∧ (∀ p, p ≠ filePath (hashManager s) →
       files (world s') !! p = files (world s) !! p).
Proof.
  intros entry recorded Hh Hrun.
  assert (Hsave : recordAction configName sourcePath actionType s = saveToFile recorded).
  { unfold recordAction. go_simpl. unfold calculateDirectoryHash. go_simpl.
    by rewrite Hh. }
  rewrite Hsave in Hrun. split; [exact Hrun|].
  destruct (saveToFile_persist recorded)
    as (r0 & s0 & Hrun0 & Hhm & _ & _ & _ & _ & _ & Hfile & Hother).
  rewrite Hrun in Hrun0. injection Hrun0 as <- <-.
  rewrite Hhm. simpl in *.
  split; [apply lookup_insert_eq|].
  split; [intros other Hne; by apply lookup_insert_ne|].
  split; [exact Hfile | exact Hother].
Qed.

End StoreProofs.

Lemma recordAction_store_witness :
  let w := mkWorld Demo.now ∅ ∅ (λ _, Ok "h1:abc") (λ _ _, None) (λ _ _ _, None)
             (λ _, Some ("disk full", None)) in
  let s := initialState w in
  ∃ s', recordAction "saves" "/srv/games/data" "backup" s = Done (Some "disk full") s'
    ∧ hashes (hashManager s') !! "saves"
      = Some (mkHashStatus "h1:abc" "backup" Demo.now).
Proof.
  intros w s.
  exists (finalState (recordAction "saves" "/srv/games/data" "backup" s)).
  assert (Hrun : recordAction "saves" "/srv/games/data" "backup" s
                 = Done (Some "disk full")
                     (finalState (recordAction "saves" "/srv/games/data" "backup" s)))
    by (vm_compute; reflexivity).
  split; [exact Hrun|].
  exact (proj1 (proj2 (recordAction_store "saves" "/srv/games/data" "backup" s _
                         "h1:abc" (Some "disk full") eq_refl Hrun))).
Defined.

(** ** The skip branch and the status table *)

Section StatusProofs.
Context `{GoRuntime}.

Lemma skipBackup_eq config s :
  ∃ s1, dirs (world s1) = dirs (world s)
    ∧ clock (world s1) = clock (world s)
    ∧ backupStatus s1 = backupStatus s
    ∧ (∀ err, hashDir (world s) (BackupConfig.Source config) = Err err →
         hashManager s1 = hashManager s ∧ files (world s1) = files (world s))
    ∧ skipBackup config s
      = (_ ← updateBackupCompleted (BackupConfig.Name config)
               (BackupConfig.ScheduleMinutes config);
         mret None) s1.
Proof.
  unfold skipBackup.
  rewrite (bind_Done (logPrintf _) _ s tt _ eq_refl).
  set (s0 := set_logs _ s).
  destruct (hashDir (world s) (BackupConfig.Source config)) as [h|err] eqn:Hh.
  - destruct (recordAction_ok (BackupConfig.Name config) (BackupConfig.Source config)
                "skipped" s0 h Hh)
      as (r & s1 & Hrec & _ & _ & Hbs & _ & _ & Hdirs & Hclk).
    rewrite (bind_Done _ _ _ _ _ Hrec).
    destruct r as [e|].
    + rewrite (bind_Done (logPrintf _) _ s1 tt _ eq_refl).
      exists (set_logs (λ l, l ++ [LogFailedRecordSkip (BackupConfig.Name config) e]) s1).
      split; [exact Hdirs|]. split; [exact Hclk|]. split; [exact Hbs|].
      split; [discriminate | reflexivity].
    + rewrite (bind_Done (mret tt) _ s1 tt _ eq_refl).
      exists s1.
      split; [exact Hdirs|]. split; [exact Hclk|]. split; [exact Hbs|].
      split; [discriminate | reflexivity].
  - rewrite (bind_Done _ _ _ _ _ (recordAction_err _ _ "skipped" s0 err Hh)).
    rewrite (bind_Done (logPrintf _) _ s0 tt _ eq_refl).
    exists (set_logs (λ l, l ++ [LogFailedRecordSkip (BackupConfig.Name config) err]) s0).
    repeat split; reflexivity.
Qed.

(** X7. The skip branch never fails and never touches a directory: it
    returns [nil] even when recording the skip fails, leaves every listing
    as it was, and sets the job's last time to now and its next time to now
    plus the interval.  When the fingerprint cannot be computed the store
    and the files are left as they were. *)
Theorem skipBackup_never_fails (config : BackupConfig.t) (s : State) :
  ∃ s', skipBackup config s = Done None s'
    ∧ dirs (world s') = dirs (world s)
    ∧ lastBackupTimes (backupStatus s') !! BackupConfig.Name config
      = Some (clock (world s))
    ∧ nextBackupTimes (backupStatus s') !! BackupConfig.Name config
      = Some (Add (clock (world s)) (minutes (BackupConfig.ScheduleMinutes config)))
    ∧ (∀ err, hashDir (world s) (BackupConfig.Source config) = Err err →
         hashManager s' = hashManager s ∧ files (world s') = files (world s)).
Proof.
  destruct (skipBackup_eq config s) as (s1 & Hdirs & Hclk & Hbs & Herr & ->).
  rewrite (bind_Done _ _ _ _ _ (updateBackupCompleted_eq _ _ s1)).
  eexists. split; [reflexivity|]. simpl. rewrite Hclk.
  split; [exact Hdirs|]. split; [apply lookup_insert_eq|].
  split; [apply lookup_insert_eq | exact Herr].
Qed.

(** A tick that copies and does not succeed has changed the listings only. *)
Lemma performBackup_failure_frame config s :
  (∀ s', performBackup config s ≠ Done None s') →
  sameButDirs s (finalState (performBackup config s)).
Proof.
  intros Hfail.
  destruct (performBackup_cases config s) as [[e He]|(s1 & Hmk & Hs1 & Hrest)].
  - rewrite (performBackup_mkdir_fails config s e He). apply sameButDirs_refl.
  - destruct Hrest as [[e Hcp]|(Hcp & o & Ho & Hso)].
    + by rewrite (performBackup_copy_fails config s s1 e Hmk Hcp).
    + destruct o as [[e|] s2|msg s2].
      * by rewrite (performBackup_cleanup_fails config s s1 s2 e Hmk Hcp Ho).
      * destruct (performBackup_cleanup_ok config s s1 s2 Hmk Hcp Ho) as (s3 & Hok & _).
        by destruct (Hfail s3).
      * by rewrite (performBackup_cleanup_panics config s s1 msg s2 Hmk Hcp Ho).
Qed.

(** A tick that copies and succeeds has updated the status at the time it
    started, and with hash checking off it has touched neither the store
    nor a file nor the log. *)
Lemma performBackup_success_state config s s3 :
  performBackup config s = Done None s3 →
  backupStatus s3
  = mkBackupStatus
      (<[BackupConfig.Name config := clock (world s)]> (lastBackupTimes (backupStatus s)))
      (<[BackupConfig.Name config
         := Add (clock (world s)) (minutes (BackupConfig.ScheduleMinutes config))]>
         (nextBackupTimes (backupStatus s)))
      (<[BackupConfig.Name config := BackupConfig.ScheduleMinutes config]>
         (scheduleMinutes (backupStatus s)))
      (<[BackupConfig.Name config := BackupConfig.Name config]>
         (configNames (backupStatus s)))
  ∧ (IsHashCheckEnabled config = false →
     hashManager s3 = hashManager s ∧ files (world s3) = files (world s)
     ∧ logs s3 = logs s).
Proof.
  intros Hrun.
  destruct (performBackup_cases config s) as [[e He]|(s1 & Hmk & Hs1 & Hrest)].
  { rewrite (performBackup_mkdir_fails config s e He) in Hrun. discriminate. }
  destruct Hrest as [[e Hcp]|(Hcp & o & Ho & Hso)].
  { rewrite (performBackup_copy_fails config s s1 e Hmk Hcp) in Hrun. discriminate. }
  destruct o as [[e|] s2|msg s2].
  { rewrite (performBackup_cleanup_fails config s s1 s2 e Hmk Hcp Ho) in Hrun.
    discriminate. }
  2: { rewrite (performBackup_cleanup_panics config s s1 msg s2 Hmk Hcp Ho) in Hrun.
       discriminate. }
  simpl in Hso. destruct Hso as (Hhm & Hbs & Hlogs & Hclk & Hfiles & Hhd & _).
  rewrite (performBackup_after_copy config s s1 Hmk Hcp) in Hrun.
  rewrite (bind_Done _ _ _ _ _ Ho) in Hrun. cbv beta iota in Hrun.
  rewrite (bind_Done _ _ s2 tt _ (updateBackupCompleted_eq _ _ s2)) in Hrun.
  set (s2' := set_backupStatus _ s2) in Hrun.
  assert (Hbs2 : backupStatus s2'
                 = mkBackupStatus
                     (<[BackupConfig.Name config := clock (world s)]>
                        (lastBackupTimes (backupStatus s)))
                     (<[BackupConfig.Name config
                        := Add (clock (world s))
                             (minutes (BackupConfig.ScheduleMinutes config))]>
                        (nextBackupTimes (backupStatus s)))
                     (<[BackupConfig.Name config := BackupConfig.ScheduleMinutes config]>
                        (scheduleMinutes (backupStatus s)))
                     (<[BackupConfig.Name config := BackupConfig.Name config]>
                        (configNames (backupStatus s))))
    by (simpl; by rewrite Hbs, Hclk).
  destruct (IsHashCheckEnabled config).
  - destruct (hashDir (world s2') (BackupConfig.Source config)) as [h|err] eqn:Hh.
    + destruct (recordAction_ok (BackupConfig.Name config) (BackupConfig.Source config)
                  "backup" s2' h Hh) as (r & s3' & Hrec & _ & _ & Hbs3 & _).
      go_unfold_in Hrun. rewrite Hrec in Hrun.
      destruct r; simpl in Hrun; injection Hrun as <-; simpl;
        (split; [by rewrite Hbs3 | discriminate]).
    + go_unfold_in Hrun.
      rewrite (recordAction_err _ _ "backup" s2' err Hh) in Hrun.
      simpl in Hrun. injection Hrun as <-. simpl. split; [exact Hbs2 | discriminate].
  - go_unfold_in Hrun. simpl in Hrun. injection Hrun as <-. split; [exact Hbs2|].
    intros _. simpl. by repeat split.
Qed.

(** X8. A tick that returns [nil], whether it skipped or copied, has set
    the job's entries in the status table (last time: the time the tick
    started; next time: that plus the interval; the interval; the name) and
    has left the entries of every other job as they were.  For an interval
    of up to 153722867 minutes the next time is the last time plus the
    interval in exact arithmetic, so it is not before the last time. *)
Theorem executeBackup_success_status (config : BackupConfig.t) (s s' : State) :
  executeBackup config s = Done None s' →
  let name := BackupConfig.Name config in
  let m := BackupConfig.ScheduleMinutes config in
  let now := clock (world s) in
  lastBackupTimes (backupStatus s') = <[name := now]> (lastBackupTimes (backupStatus s))
  ∧ nextBackupTimes (backupStatus s')
    = <[name := Add now (minutes m)]> (nextBackupTimes (backupStatus s))
  ∧ scheduleMinutes (backupStatus s') = <[name := m]> (scheduleMinutes (backupStatus s))
  ∧ configNames (backupStatus s') = <[name := name]> (configNames (backupStatus s))
  ∧ ((0 ≤ m ≤ 153722867)%Z →
       nextBackupTimes (backupStatus s') !! name = Some (now + m * 60000000000)%Z).
Proof.
  intros Hrun name m now.
  set (target := mkBackupStatus
                    (<[name := now]> (lastBackupTimes (backupStatus s)))
                    (<[name := Add now (minutes m)]> (nextBackupTimes (backupStatus s)))
                    (<[name := m]> (scheduleMinutes (backupStatus s)))
                    (<[name := name]> (configNames (backupStatus s)))).
  assert (Hbs : backupStatus s' = target).
  { rewrite executeBackup_eq in Hrun.
    assert (Hskip : skipBackup config s = Done None s' → backupStatus s' = target).
    { intros Hsk. destruct (skipBackup_eq config s) as (s1 & _ & Hclk & Hbs & _ & Heq).
      rewrite Heq in Hsk.
      rewrite (bind_Done _ _ _ _ _ (updateBackupCompleted_eq _ _ s1)) in Hsk.
      injection Hsk as <-. simpl. rewrite Hbs, Hclk. reflexivity. }
    destruct (IsHashCheckEnabled config);
      [|exact (proj1 (performBackup_success_state config s s' Hrun))].
    destruct (hashDir (world s) (BackupConfig.Source config)) as [h|err].
    - destruct (hashes (hashManager s) !! BackupConfig.Name config) as [st|];
        [destruct (bool_decide (h = LastHash st))|];
        first [exact (Hskip Hrun)
              | exact (proj1 (performBackup_success_state config s s' Hrun))].
    - exact (proj1 (performBackup_success_state config _ s' Hrun)). }
  rewrite Hbs. unfold target. simpl. repeat split; try reflexivity.
  intros Hm. rewrite lookup_insert_eq. unfold Add. by rewrite minutes_exact.
Qed.

(** X9. With hash checking off a tick never touches the hash store, the
    files or the log, however it ends. *)
Theorem executeBackup_without_hash_check (config : BackupConfig.t) (s : State) :
  IsHashCheckEnabled config = false →
  hashManager (finalState (executeBackup config s)) = hashManager s
  ∧ files (world (finalState (executeBackup config s))) = files (world s)
  ∧ logs (finalState (executeBackup config s)) = logs s.
Proof.
  intros Hoff. rewrite executeBackup_eq, Hoff.
  destruct (performBackup config s) as [[e|] s3|msg s3] eqn:Hrun.
  - pose proof (performBackup_failure_frame config s) as Hframe.
    rewrite Hrun in Hframe. destruct Hframe as (?&?&?&?&?&_); [|by repeat split].
    intros s'. discriminate.
  - exact (proj2 (performBackup_success_state config s s3 Hrun) Hoff).
  - pose proof (performBackup_failure_frame config s) as Hframe.
    rewrite Hrun in Hframe. destruct Hframe as (?&?&?&?&?&_); [|by repeat split].
    intros s'. discriminate.
Qed.

End StatusProofs.

Lemma executeBackup_success_status_witness :
  let s := initialState (Demo.quiet []) in
  nextBackupTimes (backupStatus (finalState (executeBackup Demo.job s))) !! "saves"
  = Some (Demo.now + 30 * 60000000000)%Z.
Proof.
  intros s.
  apply (executeBackup_success_status Demo.job s (finalState (executeBackup Demo.job s))).
  - vm_compute. reflexivity.
  - vm_compute. split; discriminate.
Defined.

Lemma executeBackup_without_hash_check_witness :
  let job := BackupConfig.mk "saves" "/srv/games/data" "/backups" 30 2 None
               (Some false) None in
  let s := initialState (Demo.unhashable []) in
  hashManager (finalState (executeBackup job s)) = hashManager s
  ∧ files (world (finalState (executeBackup job s))) = files (world s)
  ∧ logs (finalState (executeBackup job s)) = logs s.
Proof.
  intros job s. apply (executeBackup_without_hash_check job s). reflexivity.
Defined.

(** ** The scheduler at start *)

Lemma minutes_exact_signed n :
  (-153722867 ≤ n ≤ 153722867)%Z → minutes n = (n * 60000000000)%Z.
Proof.
  intros Hn. unfold minutes, dmul, Minute, Second.
  rewrite (wrap64_id n) by (unfold minDuration, maxDuration; lia).
  apply wrap64_id. unfold minDuration, maxDuration. lia.
Qed.

Section SchedulerProofs.
Context `{GoRuntime}.

Lemma recoveredTime_ext config lastBackupTime s s' :
  hashManager s' = hashManager s → hashDir (world s') = hashDir (world s) →
  recoveredTime config lastBackupTime s' = recoveredTime config lastBackupTime s.
Proof. intros Hhm Hhd. unfold recoveredTime. by rewrite Hhm, Hhd. Qed.

(** What [initializeSchedule] takes as the effective last time. *)
Lemma initializeSchedule_eq config s :
  let latest := latestSnapshot config (world s) in
  let elt := recoveredTime config latest s in
  let shown := if IsZero elt then latest else elt in
  let name := BackupConfig.Name config in
  let interval := minutes (BackupConfig.ScheduleMinutes config) in
  initializeSchedule config s
  = Done tt (set_backupStatus (λ bs,
      mkBackupStatus
        (if negb (IsZero shown) then <[name := shown]> (lastBackupTimes bs)
         else lastBackupTimes bs)
        (if negb (IsZero shown) then <[name := Add shown interval]> (nextBackupTimes bs)
         else <[name := Add (clock (world s)) interval]> (nextBackupTimes bs))
        (<[name := BackupConfig.ScheduleMinutes config]> (scheduleMinutes bs))
        (<[name := name]> (configNames bs))) s).
Proof.
  intros latest elt shown name interval. subst shown elt.
  unfold initializeSchedule, recoveredTime.
  rewrite (bind_Done timeNow _ s _ s eq_refl).
  rewrite (bind_Done _ _ _ _ _ (findLastBackupTime_eq config s)). fold latest.
  destruct (IsHashCheckEnabled config).
  - unfold getLastActionType, getLastActionTime. go_simpl.
    destruct (hashes (hashManager s) !! BackupConfig.Name config) as [st|] eqn:Hst; simpl.
    + destruct (bool_decide (LastActionType st = "skipped")
                && negb (IsZero (LastActionTime st))) eqn:Hskip; simpl.
      * apply andb_true_iff in Hskip as [_ Hnz]. apply negb_true_iff in Hnz.
        rewrite shouldSkipBackup_eq, Hst.
        destruct (hashDir (world s) (BackupConfig.Source config)) as [h|e]; simpl.
        -- destruct (bool_decide (h = LastHash st)); simpl.
           ++ by rewrite !Hnz.
           ++ reflexivity.
        -- destruct (IsZero latest) eqn:Hz; simpl; rewrite ?Hz; reflexivity.
      * destruct (IsZero latest) eqn:Hz; simpl; rewrite ?Hz; reflexivity.
    + destruct (IsZero latest) eqn:Hz; simpl; rewrite ?Hz; reflexivity.
  - go_simpl. destruct (IsZero latest) eqn:Hz; simpl; rewrite ?Hz; reflexivity.
Qed.

(** X10. [initializeSchedule] shows, as the job's last time, the effective
    last-action time the scheduler computes whenever that time is known; when
    it is unknown it shows the latest snapshot time instead.  So after a
    skip whose content has since changed, with a snapshot on disk, the
    scheduler runs at once while the status table gives a next time of the
    latest snapshot time plus the interval.  With no time to show, the next
    time is now plus the interval and the last time is left unset.  Nothing
    but the status table changes. *)
Theorem initializeSchedule_shows (config : BackupConfig.t) (s : State) :
  let name := BackupConfig.Name config in
  let interval := minutes (BackupConfig.ScheduleMinutes config) in
  let latest := latestSnapshot config (world s) in
  let elt := recoveredTime config latest s in
  let shown := if IsZero elt then latest else elt in
  (∃ desc s'', effectiveLastTime config latest s = Done (elt, desc) s'')
  ∧ ∃ s', initializeSchedule config s = Done tt s'
      ∧ world s' = world s ∧ hashManager s' = hashManager s ∧ logs s' = logs s
      ∧ lastBackupTimes (backupStatus s') !! name
        = (if IsZero shown then lastBackupTimes (backupStatus s) !! name
           else Some shown)
      ∧ nextBackupTimes (backupStatus s') !! name
        = Some (Add (if IsZero shown then clock (world s) else shown) interval)
      ∧ (∀ r h, IsHashCheckEnabled config = true →
           hashes (hashManager s) !! name = Some r →
           LastActionType r = "skipped" → LastActionTime r ≠ zeroTime →
           hashDir (world s) (BackupConfig.Source config) = Ok h →
           h ≠ LastHash r →
           elt = zeroTime ∧ shown = latest).
Proof.
  intros name interval latest elt shown. split.
  { destruct (effectiveLastTime_eq config latest s) as (desc & s'' & Heq & _).
    by eauto. }
  eexists. split; [apply initializeSchedule_eq|]. fold latest elt shown name interval.
  simpl. split; [reflexivity|]. split; [reflexivity|]. split; [reflexivity|].
  split; [|split].
  - destruct (IsZero shown); simpl; [reflexivity | apply lookup_insert_eq].
  - destruct (IsZero shown); simpl; apply lookup_insert_eq.
  - intros r h Hen Hrec Hty Hnz Hh Hne.
    assert (Helt : elt = zeroTime).
    { subst elt. unfold recoveredTime. fold name. rewrite Hen, Hrec, Hh, Hty. simpl.
      assert (IsZero (LastActionTime r) = false) as ->
        by (apply Z.eqb_neq; exact Hnz).
      simpl. by rewrite bool_decide_eq_false_2. }
    split; [exact Helt|]. subst shown. by rewrite Helt.
Qed.

(** The start of the scheduler, in closed form. *)
Lemma startupRecovery_eq config s :
  let interval := minutes (BackupConfig.ScheduleMinutes config) in
  let now := clock (world s) in
  let elt := recoveredTime config (latestSnapshot config (world s)) s in
  ∃ s', startupRecovery config s
        = Done (elt,
                if IsZero elt then 0%Z
                else if (interval <=? Sub now elt)%Z then 0%Z
                else dsub interval (Sub now elt)) s'
    ∧ world s' = world s ∧ hashManager s' = hashManager s.
Proof.
  intros interval now elt.
  destruct (initializeSchedule_frame config s) as (s1 & Hinit & Hw1 & Hhm1 & _).
  set (s2 := set_logs (λ l, l ++ [LogSchedulerStarted (BackupConfig.Name config)
                                    (BackupConfig.ScheduleMinutes config)]) s1).
  assert (Hw2 : world s2 = world s) by exact Hw1.
  assert (Hhm2 : hashManager s2 = hashManager s) by exact Hhm1.
  destruct (effectiveLastTime_eq config (latestSnapshot config (world s)) s2)
    as (desc & s3 & Helt & Hw3 & Hhm3).
  rewrite (recoveredTime_ext config _ s s2 Hhm2) in Helt by (by rewrite Hw2).
  fold elt in Helt.
  destruct (firstBackupDelay_frame config interval elt desc s3)
    as (s4 & Hdelay & Hw4 & Hhm4).
  exists s4. split; [|split; congruence].
  unfold startupRecovery.
  rewrite (bind_Done _ _ _ _ _ Hinit).
  rewrite (bind_Done (logPrintf _) _ s1 tt s2 eq_refl).
  rewrite (bind_Done _ _ _ _ _ (findLastBackupTime_eq config s2)).
  rewrite Hw2. rewrite (bind_Done _ _ _ _ _ Helt). cbv beta iota.
  fold interval. rewrite (bind_Done _ _ _ _ _ Hdelay).
  replace (clock (world s3)) with now by (unfold now; congruence). reflexivity.
Qed.

(** X11. For a non-negative interval and an effective last-action time that
    does not lie in the future, the delay of the first timer is neither
    negative nor longer than the interval; and the delay is 0 as soon as a
    whole interval has passed since that time. *)
Theorem first_delay_bounded (config : BackupConfig.t) (s : State) :
  let interval := minutes (BackupConfig.ScheduleMinutes config) in
  let now := clock (world s) in
  (0 ≤ interval)%Z →
  ∃ elt delay s', startupRecovery config s = Done (elt, delay) s'
    ∧ ((elt ≤ now)%Z → (0 ≤ delay ≤ interval)%Z)
    ∧ ((interval ≤ now - elt)%Z → delay = 0%Z).
Proof.
  intros interval now Hint.
  destruct (startupRecovery_eq config s) as (s' & Hrun & _).
  fold interval now in Hrun.
  eexists _, _, s'. split; [exact Hrun|].
  set (elt := recoveredTime config (latestSnapshot config (world s)) s).
  pose proof (wrap64_range (wrap64 (BackupConfig.ScheduleMinutes config) * Minute)) as Hr.
  change (wrap64 (wrap64 (BackupConfig.ScheduleMinutes config) * Minute))
    with interval in Hr.
  destruct (IsZero elt) eqn:Hz; [split; intros; lia|].
  split.
  - intros Hpast. rewrite delay_arith by lia. lia.
  - intros Hover.
    destruct (Z.leb_spec interval (Sub now elt)) as [_|Hlt]; [reflexivity|].
    unfold Sub, maxDuration, minDuration in *.
    destruct (Z.ltb_spec (2 ^ 63 - 1) (now - elt)); [lia|].
    destruct (Z.ltb_spec (now - elt) (- 2 ^ 63)); lia.
Qed.

(** X12. A scheduler cancelled before its first timer fires runs no backup:
    it returns normally with the world (clock, listings, files) and the
    hash store exactly as they were. *)
Theorem startBackupScheduler_cancelled_early
    (ctx : Cancellation) (config : BackupConfig.t) (s : State) :
  beforeFirstBackup ctx = true →
  ∃ s', startBackupScheduler ctx config s = Done tt s'
    ∧ world s' = world s ∧ hashManager s' = hashManager s.
Proof.
  intros Hctx. destruct (startupRecovery_eq config s) as (s1 & Hrun & Hw & Hhm).
  unfold startBackupScheduler. rewrite (bind_Done _ _ _ _ _ Hrun). cbv beta iota.
  rewrite Hctx. go_simpl. eexists. by repeat split.
Qed.

(** X13. With a schedule of zero or fewer minutes a scheduler that is not
    cancelled before its first backup ends in a panic: after the first
    backup [time.NewTicker] refuses the interval. *)
Theorem startBackupScheduler_nonpositive_interval
    (ctx : Cancellation) (config : BackupConfig.t) (s : State) :
  beforeFirstBackup ctx = false →
  (-153722867 ≤ BackupConfig.ScheduleMinutes config ≤ 0)%Z →
  panics (startBackupScheduler ctx config s).
Proof.
  intros Hctx Hm. destruct (startupRecovery_eq config s) as (s1 & Hrun & _).
  unfold startBackupScheduler. rewrite (bind_Done _ _ _ _ _ Hrun). cbv beta iota.
  rewrite Hctx.
  match goal with |- context [wait ?d] =>
    rewrite (bind_Done (wait d) _ s1 tt _ eq_refl)
  end.
  match goal with |- panics ((performBackupTask config ≫= _) ?s2) =>
    destruct (performBackupTask config s2) as [[] s3|msg s3] eqn:Htask
  end.
  - rewrite (bind_Done _ _ _ _ _ Htask).
    rewrite minutes_exact_signed by lia.
    destruct (Z.leb_spec (BackupConfig.ScheduleMinutes config * 60000000000) 0);
      [exact I | lia].
  - by rewrite (bind_Panic _ _ _ _ _ Htask).
Qed.

End SchedulerProofs.

Lemma first_delay_bounded_witness :
  let s := Demo.withRecord (Demo.quiet [])
             (mkHashStatus "h1:abc" "skipped" (Demo.now - 45 * Minute)%Z) in
  ∃ elt s', startupRecovery Demo.job s = Done (elt, 0%Z) s'.
Proof.
  intros s.
  destruct (first_delay_bounded Demo.job s ltac:(vm_compute; discriminate))
    as (elt & delay & s' & Hrun & _ & Hover).
  exists elt, s'. rewrite Hrun. do 2 f_equal. apply Hover.
  vm_compute in Hrun. injection Hrun as <- _ _. vm_compute. discriminate.
Defined.

Lemma startBackupScheduler_cancelled_early_witness :
  let s := initialState (Demo.quiet []) in
  ∃ s', startBackupScheduler (mkCancellation true 0) Demo.job s = Done tt s'
    ∧ world s' = world s ∧ hashManager s' = hashManager s.
Proof.
  intros s. apply (startBackupScheduler_cancelled_early _ Demo.job s). reflexivity.
Defined.

Lemma startBackupScheduler_nonpositive_interval_witness :
  let job := BackupConfig.mk "saves" "/srv/games/data" "/backups" 0 2 None None None in
  panics (startBackupScheduler (mkCancellation false 3) job (initialState (Demo.quiet []))).
Proof.
  intros job.
  apply (startBackupScheduler_nonpositive_interval _ job); [reflexivity|].
  vm_compute. split; discriminate.
Defined.

Lemma initializeSchedule_shows_witness :
  let old := Demo.snapshot "09-08-2025_14-30-15_data" (Ok Demo.now) None in
  let s := Demo.withRecord (Demo.quiet [old])
             (mkHashStatus "h1:old" "skipped" (Demo.now - 15 * Minute)%Z) in
  recoveredTime Demo.job (latestSnapshot Demo.job (world s)) s = zeroTime
  ∧ nextBackupTimes (backupStatus (finalState (initializeSchedule Demo.job s))) !! "saves"
    = Some (Civil.Date 2025 8 9 15 0 15 0).
Proof.
  intros old s.
  destruct (initializeSchedule_shows Demo.job s)
    as (_ & s' & Hrun & _ & _ & _ & _ & Hnext & Hchanged).
  destruct (Hchanged (mkHashStatus "h1:old" "skipped" (Demo.now - 15 * Minute)%Z)
              "h1:abc" eq_refl eq_refl eq_refl
              ltac:(vm_compute; discriminate) eq_refl ltac:(discriminate))
    as [Helt _].
  split; [exact Helt|].
  rewrite Hrun. cbn [finalState]. etransitivity; [exact Hnext|].
  vm_compute. reflexivity.
Defined.

(** ** A skip, then a restart *)

Section RestartProofs.
Context `{GoRuntime}.

(** X14. A skip counts as a backup for the timing of a restart: after a tick
    that skipped at a time [t0] (not the zero time), a scheduler started
    later on the same store, with hash checking on and the content of the
    source still unchanged, takes [t0] as its effective last-action time,
    whatever snapshots lie on disk. *)
Theorem restart_after_skip (config : BackupConfig.t) (s s1 s2 : State) (h : string) :
  IsHashCheckEnabled config = true →
  hashDir (world s) (BackupConfig.Source config) = Ok h →
  clock (world s) ≠ zeroTime →
  skipBackup config s = Done None s1 →
  hashManager s2 = hashManager s1 →
  hashDir (world s2) (BackupConfig.Source config) = Ok h →
  ∃ delay s3, startupRecovery config s2 = Done (clock (world s), delay) s3.
Proof.
  intros Hen Hh Hnz Hskip Hhm Hh2.
  destruct (skipBackup_records config s h Hh) as (s1' & Hskip' & Hrec).
  rewrite Hskip in Hskip'. injection Hskip' as <-.
  destruct (startupRecovery_eq config s2) as (s3 & Hrun & _).
  eexists _, s3. rewrite Hrun. do 2 f_equal.
  unfold recoveredTime. rewrite Hen, Hhm, Hrec, Hh2. simpl.
  assert (IsZero (clock (world s)) = false) as -> by (apply Z.eqb_neq; exact Hnz).
  simpl. by rewrite bool_decide_eq_true_2.
Qed.

End RestartProofs.

Lemma restart_after_skip_witness :
  let s := Demo.withRecord (Demo.quiet []) (mkHashStatus "h1:abc" "backup" Demo.now) in
  let s1 := finalState (skipBackup Demo.job s) in
  let s2 := set_world (set_clock (λ t, Add t (10 * Minute)%Z)) s1 in
  ∃ delay s3, startupRecovery Demo.job s2 = Done (Demo.now, delay) s3.
Proof.
  intros s s1 s2.
  apply (restart_after_skip Demo.job s s1 s2 "h1:abc");
    [reflexivity | reflexivity | vm_compute; discriminate | vm_compute; reflexivity
    | reflexivity | reflexivity].
Defined.

(** ** The number of snapshots after a tick that copied *)

Section CountProofs.
Context `{GoRuntime}.

(** The number of snapshots a successful retention step leaves. *)
Lemma retention_count (config : BackupConfig.t) (s s2 : State) (entries : list DirEntry) :
  let dest := BackupConfig.Destination config in
  let sfn := getSourceFolderName (BackupConfig.Source config) in
  let R := BackupConfig.RotationCount config in
  let snapshots := filter (λ e, qualifies sfn e) entries in
  sort_Slice_ok olderThan →
  dirs (world s) !! dest = Some (Ok entries) →
  wfListing entries →
  Forall (λ e, is_Some (ModTime e)) snapshots →
  (0 ≤ R)%Z →
  cleanupOldBackups config s = Done None s2 →
  length (filter (λ e, qualifies sfn e) (listing dest s2))
  = Nat.min (length snapshots) (Z.to_nat R).
Proof.
  intros dest sfn R snapshots Hsort Hdir [Hnodup Hlen] Hstat HR Hrun.
  pose proof (length_filter (λ e, qualifies sfn e) entries) as HN.
  fold snapshots in HN.
  unfold cleanupOldBackups, osReadDir in Hrun. go_unfold_in Hrun. simpl in Hrun.
  fold dest in Hrun. rewrite Hdir in Hrun. fold sfn snapshots R in Hrun.
  destruct (Z.leb_spec (Z.of_nat (length snapshots)) R) as [Hle|Hgt].
  { injection Hrun as <-. rewrite (listing_eq dest s entries Hdir).
    fold snapshots. lia. }
  destruct (Hsort (statEntries snapshots)) as [Hperm _].
  set (sorted := sort_Slice olderThan (statEntries snapshots)) in *.
  assert (HlenS : length sorted = length snapshots).
  { rewrite (Permutation_length Hperm).
    rewrite <- (length_fmap entry), (statEntries_entry snapshots Hstat). reflexivity. }
  rewrite HlenS in Hrun.
  rewrite wrap64_id in Hrun by (unfold minDuration, maxDuration; lia).
  set (k := Z.to_nat (Z.of_nat (length snapshots) - R)) in Hrun.
  destruct (deleteOldest_run dest sorted k 0 s entries Hdir ltac:(lia))
    as (s' & Hloop & Hdir' & _).
  rewrite drop_0 in Hloop, Hdir'.
  destruct (deletions (take k sorted)) as [deleted err] eqn:Hdel. simpl in Hloop, Hdir'.
  rewrite Hloop in Hrun. injection Hrun as -> ->.
  destruct (deletions_spec _ _ _ Hdel) as (rest & Hv & _ & ->).
  rewrite app_nil_r in Hv. subst deleted.
  rewrite (listing_eq _ _ _ Hdir'), without_commutes. fold snapshots.
  assert (HpermE : entry <$> (take k sorted ++ drop k sorted) ≡ₚ snapshots).
  { rewrite take_drop, Hperm. by rewrite (statEntries_entry snapshots Hstat). }
  assert (Hcount : filter (λ e, Name e ∉ (Name ∘ entry) <$> take k sorted) snapshots
                   ≡ₚ entry <$> drop k sorted).
  { etransitivity; [apply filter_Permutation; symmetry; exact HpermE|].
    rewrite fmap_app, list_fmap_compose.
    rewrite filter_notin_app; [reflexivity|].
    rewrite <- fmap_app, HpermE.
    eapply sublist_NoDup; [exact Hnodup|].
    apply fmap_sublist, sublist_filter. }
  unfold without. rewrite (Permutation_length Hcount), length_fmap, length_drop. lia.
Qed.

Lemma osMkdirAll_fresh dir name s s1 entries :
  osMkdirAll dir name s = Done None s1 →
  dirs (world s) !! dir = Some (Ok entries) →
  name ∉ Name <$> entries →
  dirs (world s1) !! dir
  = Some (Ok (entries ++ [mkDirEntry name true (Ok (clock (world s))) None])).
Proof.
  unfold osMkdirAll. go_simpl.
  destruct (mkdirAll (world s) dir name); [discriminate|].
  intros [= <-] Hdir Hnew. simpl. rewrite Hdir.
  rewrite bool_decide_eq_false_2 by exact Hnew. apply lookup_insert_eq.
Qed.

(** A tick that copied and succeeded: the steps it went through, and the
    listings it ends with. *)
Lemma performBackup_success_dirs config s s3 :
  let dest := BackupConfig.Destination config in
  let name := generateBackupDirName (BackupConfig.Source config) (clock (world s)) in
  performBackup config s = Done None s3 →
  ∃ s1 s2, osMkdirAll dest name s = Done None s1
    ∧ cleanupOldBackups config s1 = Done None s2
    ∧ dirs (world s3) = dirs (world s2).
Proof.
  intros dest name Hrun.
  destruct (performBackup_cases config s) as [[e He]|(s1 & Hmk & Hs1 & Hrest)].
  { rewrite (performBackup_mkdir_fails config s e He) in Hrun. discriminate. }
  destruct Hrest as [[e Hcp]|(Hcp & o & Ho & Hso)].
  { rewrite (performBackup_copy_fails config s s1 e Hmk Hcp) in Hrun. discriminate. }
  destruct o as [[e|] s2|msg s2].
  { rewrite (performBackup_cleanup_fails config s s1 s2 e Hmk Hcp Ho) in Hrun.
    discriminate. }
  2: { rewrite (performBackup_cleanup_panics config s s1 msg s2 Hmk Hcp Ho) in Hrun.
       discriminate. }
  exists s1, s2. split; [exact Hmk|]. split; [exact Ho|].
  rewrite (performBackup_after_copy config s s1 Hmk Hcp) in Hrun.
  rewrite (bind_Done _ _ _ _ _ Ho) in Hrun. cbv beta iota in Hrun.
  rewrite (bind_Done _ _ s2 tt _ (updateBackupCompleted_eq _ _ s2)) in Hrun.
  set (s2' := set_backupStatus _ s2) in Hrun.
  destruct (IsHashCheckEnabled config).
  - destruct (hashDir (world s2') (BackupConfig.Source config)) as [h|err] eqn:Hh.
    + destruct (recordAction_ok (BackupConfig.Name config) (BackupConfig.Source config)
                  "backup" s2' h Hh) as (r & s3' & Hrec & _ & _ & _ & _ & _ & Hdirs & _).
      go_unfold_in Hrun. rewrite Hrec in Hrun.
      destruct r; simpl in Hrun; injection Hrun as <-; simpl; exact Hdirs.
    + go_unfold_in Hrun.
      rewrite (recordAction_err _ _ "backup" s2' err Hh) in Hrun.
      simpl in Hrun. by injection Hrun as <-.
  - go_unfold_in Hrun. simpl in Hrun. by injection Hrun as <-.
Qed.

(** X15. After a tick that copied and succeeded, the destination holds
    [min(N + 1, R)] qualifying snapshots, where [N] is their number before
    the tick and [R ≥ 0] the rotation count: the new snapshot is added and
    the oldest ones beyond [R] are deleted.  This holds for a generated
    name that is a single path element, so that the directory created
    bears it (a root directory as source is thereby set aside: the created
    directory then bears the name without the separator at its end and does
    not qualify), a listing with distinct names that holds no entry of that
    name yet, snapshots that can all be stat'ed, and a formatted timestamp
    of the 19 bytes of the layout or more. *)
Theorem performBackup_snapshot_count
    (config : BackupConfig.t) (s s' : State) (entries : list DirEntry) :
  let dest := BackupConfig.Destination config in
  let sfn := getSourceFolderName (BackupConfig.Source config) in
  let R := BackupConfig.RotationCount config in
  let name := generateBackupDirName (BackupConfig.Source config) (clock (world s)) in
  let N := length (filter (λ e, qualifies sfn e) entries) in
  sort_Slice_ok olderThan →
  dirs (world s) !! dest = Some (Ok entries) →
  isPathElement name = true →
  NoDup (Name <$> entries) →
  name ∉ Name <$> entries →
  (Z.of_nat (length entries) < 2 ^ 63 - 1)%Z →
  Forall (λ e, is_Some (ModTime e)) (filter (λ e, qualifies sfn e) entries) →
  (0 ≤ R)%Z →
  (String.length BackupTimestampFormat
   ≤ String.length (time_Format (clock (world s))))%nat →
  performBackup config s = Done None s' →
  length (filter (λ e, qualifies sfn e) (listing dest s'))
  = Nat.min (N + 1) (Z.to_nat R).
Proof.
  change (String.length BackupTimestampFormat) with 19%nat.
  intros dest sfn R name N Hsort Hdir _ Hnodup Hnew Hlen Hstat HR Hfmt Hrun.
  destruct (performBackup_success_dirs config s s' Hrun) as (s1 & s2 & Hmk & Hcl & Hdirs).
  fold dest name in Hmk.
  pose proof (osMkdirAll_fresh dest name s s1 entries Hmk Hdir Hnew) as Hdir1.
  set (fresh := mkDirEntry name true (Ok (clock (world s))) None) in Hdir1.
  assert (Hq : qualifies sfn fresh = true).
  { unfold qualifies, fresh. simpl.
    apply (generateBackupDirName_recognised (BackupConfig.Source config) _ Hfmt). }
  assert (Hfilter : filter (λ e, qualifies sfn e) (entries ++ [fresh])
                    = filter (λ e, qualifies sfn e) entries ++ [fresh]).
  { rewrite filter_app. f_equal. rewrite filter_cons.
    destruct (decide (qualifies sfn fresh)) as [_|Hn]; [reflexivity|].
    destruct Hn. by rewrite Hq. }
  pose proof (retention_count config s1 s2 (entries ++ [fresh]) Hsort Hdir1) as Hcount.
  fold dest sfn R in Hcount. rewrite Hfilter in Hcount.
  unfold listing. rewrite Hdirs. fold (listing dest s2).
  rewrite Hcount.
  - rewrite length_app. simpl. reflexivity.
  - split.
    + rewrite fmap_app. apply NoDup_app. split; [exact Hnodup|]. split.
      * intros x Hx [->|Hnil%elem_of_nil]%elem_of_cons; [|done]. by apply Hnew.
      * simpl. apply NoDup_singleton.
    + rewrite length_app. simpl. lia.
  - apply Forall_app. split; [exact Hstat|]. constructor; [|constructor].
    by eexists.
  - exact HR.
  - exact Hcl.
Qed.

End CountProofs.

Lemma performBackup_snapshot_count_witness :
  let entries :=
    [Demo.snapshot "08-08-2025_08-00-00_data" (Ok (Civil.Date 2025 8 8 8 0 0 0)) None;
     Demo.snapshot "09-08-2025_08-00-00_data" (Ok (Civil.Date 2025 8 9 8 0 0 0)) None;
     Demo.snapshot "notes" (Ok (Civil.Date 2025 8 1 0 0 0 0)) None] in
  let s := initialState (Demo.quiet entries) in
  length (filter (λ e, qualifies "data" e)
            (listing "/backups" (finalState (performBackup Demo.job s)))) = 2.
Proof.
  intros entries s.
  apply (performBackup_snapshot_count Demo.job s _ entries unix_sort_Slice_ok eq_refl).
  - vm_compute. reflexivity.
  - apply (bool_decide_unpack _). vm_compute. exact I.
  - apply (bool_decide_unpack _). vm_compute. exact I.
  - vm_compute. reflexivity.
  - apply (bool_decide_unpack _). vm_compute. exact I.
  - vm_compute. discriminate.
  - apply Nat.leb_le. vm_compute. reflexivity.
  - vm_compute. reflexivity.
Defined.

(** ** config.go: defaults *)

(** X16. The defaults that [loadConfig] writes into a configuration are the
    ones the accessors assume for a field left out: configuration by
    configuration, [IsEnabled], [IsHashCheckEnabled] and
    [GetLogRetentionDays] answer the same before and after the loop, the two
    flags are no longer [nil] and hold these answers, and every other field
    is as read.  A second pass changes nothing. *)
Theorem applyDefaults_agrees_with_accessors (backups : list BackupConfig.t) :
  Forall2 (λ bc bc',
      IsEnabled bc' = IsEnabled bc
      ∧ IsHashCheckEnabled bc' = IsHashCheckEnabled bc
      ∧ GetLogRetentionDays bc' = GetLogRetentionDays bc
      ∧ BackupConfig.Enabled bc' = Some (IsEnabled bc)
      ∧ BackupConfig.HashCheck bc' = Some (IsHashCheckEnabled bc)
      ∧ BackupConfig.LogRetentionDays bc' = BackupConfig.LogRetentionDays bc
      ∧ BackupConfig.Name bc' = BackupConfig.Name bc
      ∧ BackupConfig.Source bc' = BackupConfig.Source bc
      ∧ BackupConfig.Destination bc' = BackupConfig.Destination bc
      ∧ BackupConfig.ScheduleMinutes bc' = BackupConfig.ScheduleMinutes bc
      ∧ BackupConfig.RotationCount bc' = BackupConfig.RotationCount bc)
    backups (applyDefaults backups)
  ∧ applyDefaults (applyDefaults backups) = applyDefaults backups.
Proof.
  split.
  - induction backups as [|bc rest IH]; constructor; [|exact IH].
    destruct bc as [n src dst sm rc [en|] [hc|] lr];
      unfold IsEnabled, IsHashCheckEnabled, GetLogRetentionDays; simpl;
      repeat split; by destruct en || destruct hc || idtac.
  - induction backups as [|bc rest IH]; [reflexivity|].
    simpl. rewrite IH. f_equal.
    by destruct bc as [n src dst sm rc [en|] [hc|] lr].
Qed.

(** ** logger.go: the date in a log file name *)

Lemma isDate_length (d : string) : isDate d = true → String.length d = 10%nat.
Proof.
  intros Hd.
  do 10 (destruct d as [|? d]; [simpl in Hd; discriminate|]).
  destruct d; [reflexivity | simpl in Hd; discriminate].
Qed.

Lemma extractDateFromLogName_app (p d : string) :
  isDate d = true → extractDateFromLogName (p +:+ d +:+ ".log") = d.
Proof.
  intros Hd. pose proof (isDate_length d Hd) as Hlen.
  unfold extractDateFromLogName.
  rewrite !string_app_length, Hlen. simpl String.length.
  destruct (Nat.ltb_spec (String.length p + (10 + 4)) 14) as [Hlt|_]; [lia|].
  replace (String.length p + (10 + 4) - 14)%nat with (String.length p) by lia.
  rewrite string_drop_app.
  assert (Ht : string_take 10 (d +:+ ".log") = d)
    by (rewrite <- Hlen; apply string_take_app).
  assert (Hs : string_drop 10 (d +:+ ".log") = ".log")
    by (rewrite <- Hlen; apply string_drop_app).
  rewrite Ht, Hs, Hd. by rewrite bool_decide_eq_true_2.
Qed.

Lemma extractDateFromLogName_inv (filename : string) :
  extractDateFromLogName filename ≠ "" →
  isDate (extractDateFromLogName filename) = true
  ∧ ∃ p, filename = p +:+ extractDateFromLogName filename +:+ ".log".
Proof.
  unfold extractDateFromLogName.
  destruct (String.length filename <? 14)%nat; [done|].
  set (tail := string_drop (String.length filename - 14) filename).
  destruct (isDate (string_take 10 tail)) eqn:Hd; [|done].
  destruct (bool_decide (string_drop 10 tail = ".log")) eqn:Hs; [|done].
  apply bool_decide_eq_true_1 in Hs. cbn [andb]. intros _. split; [exact Hd|].
  exists (string_take (String.length filename - 14) filename).
  rewrite <- Hs, (string_take_drop 10 tail). unfold tail.
  by rewrite string_take_drop.
Qed.

Lemma strings_HasSuffix_app (p suffix : string) :
  strings_HasSuffix (p +:+ suffix) suffix = true.
Proof.
  unfold strings_HasSuffix. rewrite string_app_length.
  apply andb_true_intro. split; [apply Nat.leb_le; lia|].
  apply bool_decide_eq_true_2.
  replace (String.length p + String.length suffix - String.length suffix)%nat
    with (String.length p) by lia.
  apply string_drop_app.
Qed.

(** X17. [extractDateFromLogName] returns a date [d], that is a string
    other than the empty one, exactly when the file name is some prefix
    followed by [d] and [.log], with [d] of the shape [NN-NN-NNNN] in ASCII
    digits; such a name passes the [.log] suffix test of [cleanupOldLogs]. *)
Theorem extractDateFromLogName_spec (filename d : string) :
  (extractDateFromLogName filename = d ∧ d ≠ ""
   ↔ isDate d = true ∧ ∃ p, filename = p +:+ d +:+ ".log")
  ∧ (extractDateFromLogName filename ≠ "" →
     strings_HasSuffix filename ".log" = true).
Proof.
  split; [split|].
  - intros [<- Hne]. by apply extractDateFromLogName_inv.
  - intros [Hd [p ->]]. split; [by apply extractDateFromLogName_app|].
    intros ->. discriminate.
  - intros Hne. destruct (extractDateFromLogName_inv filename Hne) as [_ [p Hp]].
    rewrite Hp. rewrite string_app_assoc_r. apply strings_HasSuffix_app.
Qed.

Lemma extractDateFromLogName_spec_witness :
  strings_HasSuffix "backup_10-08-2025.log" ".log" = true.
Proof.
  apply (extractDateFromLogName_spec "backup_10-08-2025.log" "").
  vm_compute. discriminate.
Defined.

Section LoggerProofs.
Context `{LogRuntime}.

(** X18. The log file that [getTodayLogPath] names carries today's date
    where [extractDateFromLogName] looks for it, whatever the prefix:
    provided the formatted date has the shape [NN-NN-NNNN], the file name
    ends in [.log] and the date extracted from it is the formatted date. *)
Theorem getTodayLogPath_dated (baseDir prefix : string) (s : State) :
  isDate (time_FormatDate (clock (world s))) = true →
  ∃ fileName,
    getTodayLogPath baseDir prefix s = Done (filepath_Join baseDir fileName) s
    ∧ strings_HasSuffix fileName ".log" = true
    ∧ extractDateFromLogName fileName = time_FormatDate (clock (world s)).
Proof.
  intros Hd. exists (todayLogName prefix (clock (world s))).
  split; [reflexivity|]. unfold todayLogName. split.
  - rewrite !string_app_assoc_r. apply strings_HasSuffix_app.
  - rewrite (string_app_assoc_r prefix "_").
    by apply extractDateFromLogName_app.
Qed.

(** ** logger.go: retention of log files *)

Lemma filter_iff_in {A} (P Q : A → Prop) `{∀ x, Decision (P x)} `{∀ x, Decision (Q x)}
    (l : list A) :
  Forall (λ x, P x ↔ Q x) l → filter P l = filter Q l.
Proof.
  induction 1 as [|x l Hx _ IH]; [reflexivity|].
  rewrite !filter_cons, IH.
  destruct (decide (P x)), (decide (Q x)); tauto.
Qed.

Lemma cleanupLogEntry_run (logDir : string) (cutoffDate : Time) (entry : DirEntry)
    (s : State) (cur : list DirEntry) :
  dirs (world s) !! logDir = Some (Ok cur) →
  ∃ s', cleanupLogEntry logDir cutoffDate entry s = Done tt s'
    ∧ sameButDirs s s'
    ∧ (∀ d, d ≠ logDir → dirs (world s') !! d = dirs (world s) !! d)
    ∧ dirs (world s') !! logDir
      = Some (Ok (if removedLog logDir cutoffDate (Name entry)
                  then filter (λ e', Name e' ≠ Name entry) cur
                  else cur)).
Proof.
  intros Hdir.
  assert (Hsame : ∃ s', Done tt s = Done tt s'
    ∧ sameButDirs s s'
    ∧ (∀ d, d ≠ logDir → dirs (world s') !! d = dirs (world s) !! d)
    ∧ dirs (world s') !! logDir = Some (Ok cur)).
  { exists s. split; [reflexivity|]. split; [apply sameButDirs_refl|]. by split. }
  unfold cleanupLogEntry, removedLog, expiredLog.
  destruct (strings_HasSuffix (Name entry) ".log"); simpl; [|exact Hsame].
  destruct (bool_decide (extractDateFromLogName (Name entry) ≠ "")); simpl;
    [|exact Hsame].
  destruct (time_ParseDate (extractDateFromLogName (Name entry))) as [logDate|e];
    [|exact Hsame].
  destruct (Before logDate cutoffDate); simpl; [|exact Hsame].
  unfold osRemove.
  destruct (removeError (filepath_Join logDir (Name entry))) as [e|]; simpl.
  { go_simpl. exact Hsame. }
  go_simpl. eexists. split; [reflexivity|]. split.
  { apply sameButDirs_set_dirs. }
  simpl. rewrite Hdir. split.
  - intros d Hd. by apply lookup_insert_ne.
  - apply lookup_insert_eq.
Qed.

Lemma cleanupLogEntries_run (logDir : string) (cutoffDate : Time) :
  ∀ (entries : list DirEntry) (s : State) (cur : list DirEntry),
    dirs (world s) !! logDir = Some (Ok cur) →
    ∃ s', cleanupLogEntries logDir cutoffDate entries s = Done tt s'
      ∧ sameButDirs s s'
      ∧ (∀ d, d ≠ logDir → dirs (world s') !! d = dirs (world s) !! d)
      ∧ dirs (world s') !! logDir
        = Some (Ok (filter (λ e, ¬ (removedLog logDir cutoffDate (Name e)
                                    ∧ Name e ∈ Name <$> entries)) cur)).
Proof.
  induction entries as [|entry rest IH]; intros s cur Hdir.
  - exists s. split; [reflexivity|]. split; [apply sameButDirs_refl|].
    split; [done|]. rewrite Hdir. do 2 f_equal. symmetry.
    apply filter_all, Forall_forall. intros e _ [_ Hin]. by apply elem_of_nil in Hin.
  - destruct (cleanupLogEntry_run logDir cutoffDate entry s cur Hdir)
      as (s1 & Hstep & Hsame1 & Hframe1 & Hdir1).
    destruct (IH s1 _ Hdir1) as (s2 & Hrest & Hsame2 & Hframe2 & Hdir2).
    exists s2. split.
    { cbn [cleanupLogEntries]. by rewrite (bind_Done _ _ _ _ _ Hstep). }
    split; [by eapply sameButDirs_trans|].
    split; [intros d Hd; by rewrite Hframe2, Hframe1|].
    rewrite Hdir2. do 2 f_equal.
    destruct (removedLog logDir cutoffDate (Name entry)) eqn:Hrm.
    + rewrite list_filter_filter. apply list_filter_iff. intros e.
      rewrite fmap_cons, elem_of_cons. split.
      * intros [Hno Hne] [Hre [Heq|Hin]]; [done|]. by apply Hno.
      * intros Hno. split.
        -- intros [Hre Hin]. apply Hno. by split; [|right].
        -- intros Heq. apply Hno. rewrite Heq. split; [by rewrite Hrm|by left].
    + apply list_filter_iff. intros e.
      rewrite fmap_cons, elem_of_cons. split.
      * intros Hno [Hre [Heq|Hin]]; [|by apply Hno].
        rewrite Heq, Hrm in Hre. done.
      * intros Hno [Hre Hin]. apply Hno. by split; [|right].
Qed.

(** X19. [cleanupOldLogs] fails only when the log directory cannot be
    listed, and then changes nothing.  Otherwise it returns [nil], even
    when deletions fail, and leaves in the directory exactly the entries
    that are not both expired and removable, in their order: an entry is
    expired when its name ends in [.log], carries a date where
    [extractDateFromLogName] looks for it, the date parses, and the parsed
    date is before the cutoff, [retentionDays] days before now.  Nothing
    else of the state changes. *)
Theorem cleanupOldLogs_removes_expired (logDir : string) (retentionDays : Z) (s : State) :
  let cutoffDate := time_AddDate (clock (world s)) (wrap64 (- retentionDays)) in
  match dirs (world s) !! logDir with
  | Some (Ok entries) =>
      ∃ s', cleanupOldLogs logDir retentionDays s = Done None s'
        ∧ sameButDirs s s'
        ∧ (∀ d, d ≠ logDir → dirs (world s') !! d = dirs (world s) !! d)
        ∧ dirs (world s') !! logDir
          = Some (Ok (filter (λ e, negb (removedLog logDir cutoffDate (Name e)))
                        entries))
  | Some (Err err) => cleanupOldLogs logDir retentionDays s = Done (Some err) s
  | None =>
      cleanupOldLogs logDir retentionDays s
      = Done (Some "no such file or directory") s
  end.
Proof.
  intros cutoffDate.
  destruct (dirs (world s) !! logDir) as [[entries|err]|] eqn:Hdir.
  - destruct (cleanupLogEntries_run logDir cutoffDate entries s entries Hdir)
      as (s' & Hrun & Hsame & Hframe & Hdir').
    exists s'. split.
    { unfold cleanupOldLogs, osReadDir. go_simpl. rewrite Hdir.
      fold cutoffDate. by rewrite Hrun. }
    split; [exact Hsame|]. split; [exact Hframe|].
    rewrite Hdir'. do 2 f_equal. apply filter_iff_in.
    apply Forall_forall. intros e He. split.
    + intros Hno. destruct (removedLog logDir cutoffDate (Name e)) eqn:Hrm; [|done].
      destruct Hno. split; [done|]. by apply list_elem_of_fmap_2.
    + intros Hno [Hre _]. by destruct (removedLog logDir cutoffDate (Name e)).
  - unfold cleanupOldLogs, osReadDir. go_simpl. by rewrite Hdir.
  - unfold cleanupOldLogs, osReadDir. go_simpl. by rewrite Hdir.
Qed.

End LoggerProofs.

Lemma getTodayLogPath_dated_witness :
  ∃ fileName,
    getTodayLogPath "/logs/saves" "backup" (initialState (Demo.quiet []))
    = Done (LogUnix.Join "/logs/saves" fileName) (initialState (Demo.quiet []))
    ∧ strings_HasSuffix fileName ".log" = true
    ∧ extractDateFromLogName fileName = LogUnix.FormatDate Demo.now.
Proof.
  refine (@getTodayLogPath_dated unixLogRuntime "/logs/saves" "backup"
            (initialState (Demo.quiet [])) _).
  vm_compute. reflexivity.
Defined.

Lemma cleanupOldLogs_removes_expired_witness :
  let s := initialState (logWorld "/logs/saves"
             [logFile "backup_01-08-2025.log"; logFile "backup_05-08-2025.log";
              logFile "backup_31-02-2025.log"; logFile "system.log";
              logFile "notes.txt"]) in
  dirs (world (finalState (cleanupOldLogs "/logs/saves" 7 s))) !! "/logs/saves"
  = Some (Ok [logFile "backup_05-08-2025.log"; logFile "backup_31-02-2025.log";
              logFile "system.log"; logFile "notes.txt"]).
Proof.
  intros s.
  pose proof (@cleanupOldLogs_removes_expired unixLogRuntime "/logs/saves" 7 s) as W.
  cbv zeta in W.
  assert (Hd : dirs (world s) !! "/logs/saves"
               = Some (Ok [logFile "backup_01-08-2025.log"; logFile "backup_05-08-2025.log";
                           logFile "backup_31-02-2025.log"; logFile "system.log";
                           logFile "notes.txt"]))
    by (vm_compute; reflexivity).
  rewrite Hd in W. destruct W as (s' & Hrun & _ & _ & Hdir).
  rewrite Hrun. cbn [finalState]. rewrite Hdir. vm_compute. reflexivity.
Defined.
